(** * AI Code Editor front end: request orchestration, visual encoding and
      explanation formatting of [src/App.js]

    The component [App] keeps seven pieces of React state and five helper
    functions.  This development embeds, as executable functions,

    - [handleAction] and [handleClear] (the request state machine),
    - [getComplexityColor] and [getComplexityWidth] (the visual encoder),
    - [formatExplanation] (the markdown-lite formatter),

    and proves or refutes the properties the specification states about
    them.

    JavaScript strings are sequences of UTF-16 code units; they are modelled
    as [list N].  Values that come out of [response.json()] are modelled by
    the inductive type [json]; a missing property reads as [Undefined]. *)

From Stdlib Require Import List NArith ZArith Bool Lia.
From Stdlib Require Strings.String Strings.Ascii.
From Stdlib Require Import Numbers.DecimalString.
Import ListNotations.
Import String.StringSyntax.
Bind Scope string_scope with String.string.

(** ** JavaScript strings *)

Module JsString.

Local Open Scope N_scope.

(** A string is the list of its UTF-16 code units. *)
Definition jsstring : Type := list N.

(** Literal of ASCII text. *)
Definition js (s : String.string) : jsstring :=
  map Ascii.N_of_ascii (String.list_ascii_of_string s).

Definition eqb (a b : jsstring) : bool :=
  if list_eq_dec N.eq_dec a b then true else false.

(** [s.length > 0], which is also the truthiness of a string. *)
Definition nonEmpty (s : jsstring) : bool :=
  match s with [] => false | _ :: _ => true end.

(** ECMAScript [LineTerminator]: LF, CR, LS, PS. *)
Definition isLineTerminator (c : N) : bool :=
  (c =? 10) || (c =? 13) || (c =? 8232) || (c =? 8233).

(** ECMAScript [WhiteSpace]: TAB, VT, FF, SP, NBSP, ZWNBSP and the
    Unicode space separators (all of them in the basic plane). *)
Definition isWhiteSpace (c : N) : bool :=
  (c =? 9) || (c =? 11) || (c =? 12) || (c =? 32) || (c =? 160)
  || (c =? 5760) || ((8192 <=? c) && (c <=? 8202))
  || (c =? 8239) || (c =? 8287) || (c =? 12288) || (c =? 65279).

(** What [String.prototype.trim] strips. *)
Definition isTrimmed (c : N) : bool := isWhiteSpace c || isLineTerminator c.

Fixpoint trimStart (s : jsstring) : jsstring :=
  match s with
  | c :: t => if isTrimmed c then trimStart t else s
  | [] => []
  end.

Definition trimEnd (s : jsstring) : jsstring := rev (trimStart (rev s)).

(** [s.trim()] *)
Definition trim (s : jsstring) : jsstring := trimEnd (trimStart s).

(** [s.toLowerCase()].  The map is written out for the ASCII letters.
    Outside ASCII no code point lower-cases to a code unit that occurs
    in the patterns searched by the visual encoder, so the searches
    below see the same answer as with the full Unicode map. *)
Definition lowerUnit (c : N) : N :=
  if (65 <=? c) && (c <=? 90) then c + 32 else c.

Definition toLowerCase (s : jsstring) : jsstring := map lowerUnit s.

(** [s.startsWith(p)] *)
Fixpoint startsWith (p s : jsstring) : bool :=
  match p, s with
  | [], _ => true
  | a :: p', b :: s' => (a =? b) && startsWith p' s'
  | _ :: _, [] => false
  end.

(** [s.includes(p)] *)
Fixpoint includes (p s : jsstring) : bool :=
  startsWith p s ||
  match s with
  | [] => false
  | _ :: t => includes p t
  end.

(** Decimal digits of an integer, as [String(n)] prints a safe integer
    (from 1e21 on JavaScript prints an exponent instead). *)
Definition decimal (n : Z) : jsstring :=
  js (NilEmpty.string_of_int (Z.to_int n)).

(** [s] has [p] somewhere inside. *)
Definition contains (p s : jsstring) : Prop :=
  exists before after, s = before ++ p ++ after.

End JsString.
Import JsString.

(** ** Values read from a response *)

Module Json.

(** What [JSON.parse] builds.  Numbers are kept as integers: of a number
    [handleAction] only looks at whether it is zero and, when it is given
    as an [error], at its decimal text. *)
Inductive json : Type :=
| JNull
| JBool (b : bool)
| JNum (n : Z)
| JStr (s : jsstring)
| JArr (items : list json)
| JObj (fields : list (jsstring * json)).

(** A JavaScript value held in state or read from a property. *)
Inductive value : Type :=
| Undefined
| Json (j : json).

Definition null : value := Json JNull.

(** [ToBoolean] *)
Definition truthy (v : value) : bool :=
  match v with
  | Undefined => false
  | Json JNull => false
  | Json (JBool b) => b
  | Json (JNum n) => negb (n =? 0)%Z
  | Json (JStr s) => nonEmpty s
  | Json (JArr _) => true
  | Json (JObj _) => true
  end.

(** The fields of a parsed object have distinct names. *)
Fixpoint lookup (k : jsstring) (fields : list (jsstring * json)) : value :=
  match fields with
  | [] => Undefined
  | (k', v) :: rest => if JsString.eqb k k' then Json v else lookup k rest
  end.

(** [ToString], as [new Error(v)] applies it to its argument.  Inside an
    array, [null] prints as the empty string.  An object is printed by
    [Object.prototype.toString]; an object whose fields include a
    [toString] of its own is outside this model. *)
Fixpoint ToString (j : json) : jsstring :=
  match j with
  | JNull => js "null"
  | JBool true => js "true"
  | JBool false => js "false"
  | JNum n => decimal n
  | JStr s => s
  | JArr items =>
      (fix join (l : list json) : jsstring :=
         match l with
         | [] => []
         | x :: r =>
             let e := match x with JNull => [] | _ => ToString x end in
             match r with
             | [] => e
             | _ :: _ => e ++ js "," ++ join r
             end
         end) items
  | JObj _ => js "[object Object]"
  end.

End Json.
Import Json.

(** ** Exceptions *)

Module Exc.

(** A computation either returns or throws an [Error] whose [message]
    is carried. *)
Inductive exc (A : Type) : Type :=
| Return (a : A)
| Throw (message : jsstring).

Arguments Return {A} a.
Arguments Throw {A} message.

Definition bind {A B} (m : exc A) (k : A -> exc B) : exc B :=
  match m with
  | Return a => k a
  | Throw e => Throw e
  end.

End Exc.
Import Exc.

Notation "x <- m ;; k" := (Exc.bind m (fun x => k))
  (at level 61, m at next level, right associativity).

(** ** Request orchestrator: [handleAction] and [handleClear] *)

Module Orchestrator.

(** The four arguments the action buttons pass to [handleAction]. *)
Inductive Mode : Type := Review | Fix | Optimize | Explain.

Definition modeName (m : Mode) : jsstring :=
  match m with
  | Review => js "review"
  | Fix => js "fix"
  | Optimize => js "optimize"
  | Explain => js "explain"
  end.

(** The [useState] cells of [App]. *)
Record SessionState : Type := {
  code : jsstring;
  language : jsstring;
  loading : bool;
  loadingMode : option Mode;   (* [None] is [null] *)
  result : value;
  resultMode : value;
  error : option jsstring      (* [None] is [null] *)
}.

(** State at mount. *)
Definition initial : SessionState :=
  {| code := []; language := js "javascript"; loading := false;
     loadingMode := None; result := null; resultMode := null;
     error := None |}.

Definition setCode (v : jsstring) (st : SessionState) : SessionState :=
  {| code := v; language := language st; loading := loading st;
     loadingMode := loadingMode st; result := result st;
     resultMode := resultMode st; error := error st |}.

Definition setLanguage (v : jsstring) (st : SessionState) : SessionState :=
  {| code := code st; language := v; loading := loading st;
     loadingMode := loadingMode st; result := result st;
     resultMode := resultMode st; error := error st |}.

Definition setLoading (v : bool) (st : SessionState) : SessionState :=
  {| code := code st; language := language st; loading := v;
     loadingMode := loadingMode st; result := result st;
     resultMode := resultMode st; error := error st |}.

Definition setLoadingMode (v : option Mode) (st : SessionState) : SessionState :=
  {| code := code st; language := language st; loading := loading st;
     loadingMode := v; result := result st;
     resultMode := resultMode st; error := error st |}.

Definition setResult (v : value) (st : SessionState) : SessionState :=
  {| code := code st; language := language st; loading := loading st;
     loadingMode := loadingMode st; result := v;
     resultMode := resultMode st; error := error st |}.

Definition setResultMode (v : value) (st : SessionState) : SessionState :=
  {| code := code st; language := language st; loading := loading st;
     loadingMode := loadingMode st; result := result st;
     resultMode := v; error := error st |}.

Definition setError (v : option jsstring) (st : SessionState) : SessionState :=
  {| code := code st; language := language st; loading := loading st;
     loadingMode := loadingMode st; result := result st;
     resultMode := resultMode st; error := v |}.

(** *** The service, as [fetch] shows it *)

(** What [fetch] resolved with: the status line, and what awaiting
    [response.json()] gives, a parsed value or the parser's rejection
    (a [SyntaxError], whose message the engine words). *)
Record Response : Type := {
  status : N;
  json_ : jsstring + json      (* [inl message]: the body is not JSON *)
}.

(** [response.ok]: the status is in the range 200-299. *)
Definition ok (r : Response) : bool :=
  ((200 <=? status r) && (status r <=? 299))%N.

(** How the awaited [fetch] call ends. *)
Inductive FetchOutcome : Type :=
| FetchRejected (message : jsstring)     (* the transport call raises *)
| Responded (r : Response).

(** The request handed to [fetch]: URL and the three fields of the
    JSON body. *)
Record Request : Type := {
  url : jsstring;
  body_code : jsstring;
  body_language : jsstring;
  body_mode : Mode
}.

(** [x.name] for the property names read by [handleAction], none of
    which is built in: reading from [null] or [undefined] throws a
    [TypeError] (the message is V8's), an object answers from its
    fields, every other value answers [undefined]. *)
Definition getProp (x : value) (name : String.string) : exc value :=
  match x with
  | Undefined =>
      Throw (js "Cannot read properties of undefined (reading '"
             ++ js name ++ js "')")
  | Json JNull =>
      Throw (js "Cannot read properties of null (reading '"
             ++ js name ++ js "')")
  | Json (JObj fields) => Return (lookup (js name) fields)
  | Json _ => Return Undefined
  end.

(** [new Error(v || fallback).message] *)
Definition messageOr (v : value) (fallback : String.string) : jsstring :=
  match v with
  | Json j => if truthy v then ToString j else js fallback
  | Undefined => js fallback
  end.

Definition validationMessage : jsstring := js "Please enter some code".

Section WithEnvironment.

(** [process.env.REACT_APP_API_URL], fixed when the bundle is built. *)
Variable REACT_APP_API_URL : option jsstring.

Definition API_URL : jsstring :=
  match REACT_APP_API_URL with
  | Some u => if nonEmpty u then u
              else js "https://ai-code-editor-4ia9.onrender.com"
  | None => js "https://ai-code-editor-4ia9.onrender.com"
  end.

(** [s.replace(/\/+$/, '')]: drop the slashes that end the string. *)
Definition dropTrailingSlashes (s : jsstring) : jsstring :=
  rev ((fix drop (r : jsstring) : jsstring :=
          match r with
          | c :: t => if (c =? 47)%N then drop t else r
          | [] => []
          end) (rev s)).

Definition getApiUrl (endpoint : jsstring) : jsstring :=
  let baseUrl := dropTrailingSlashes API_URL in
  let path := if startsWith (js "/") endpoint then endpoint
              else js "/" ++ endpoint in
  baseUrl ++ path.

(** [handleAction] up to the point where it awaits [fetch]: the guard
    on the trimmed code, the five setters, and the request issued
    (none when the guard returns). *)
Definition handleAction_begin (mode : Mode) (st : SessionState)
  : SessionState * option Request :=
  if negb (nonEmpty (trim (code st))) then
    (setError (Some validationMessage) st, None)
  else
    let st := setLoading true st in
    let st := setLoadingMode (Some mode) st in
    let st := setError None st in
    let st := setResult null st in
    let st := setResultMode null st in
    (st, Some {| url := getApiUrl (js "/api/review");
                 body_code := code st;
                 body_language := language st;
                 body_mode := mode |}).

End WithEnvironment.

(** The body of [try], from the awaited [fetch] on: it returns the pair
    [(data.data, data.mode)] given to [setResult] and [setResultMode],
    or throws. *)
Definition tryBody (o : FetchOutcome) : exc (value * value) :=
  match o with
  | FetchRejected message => Throw message
  | Responded response =>
      match json_ response with
      | inl message => Throw message
      | inr parsed =>
          let data := Json parsed in
          if negb (ok response) then
            e <- getProp data "error" ;;
            Throw (messageOr e "Failed to process code")
          else
            success <- getProp data "success" ;;
            if truthy success then
              d <- getProp data "data" ;;
              m <- getProp data "mode" ;;
              Return (d, m)
            else
              e <- getProp data "error" ;;
              Throw (messageOr e "Processing failed")
      end
  end.

(** [handleAction] from the awaited [fetch] on: [try], [catch],
    [finally]. *)
Definition handleAction_resume (o : FetchOutcome) (st : SessionState)
  : SessionState :=
  let st :=
    match tryBody o with
    | Return (d, m) => setResultMode m (setResult d st)
    | Throw message => setError (Some message) st
    end in
  let st := setLoading false st in
  setLoadingMode None st.

(** One whole call of [handleAction mode], the service answering [o]
    if it is asked.  The second component lists the requests sent. *)
Definition handleAction (env : option jsstring) (mode : Mode)
    (o : FetchOutcome) (st : SessionState) : SessionState * list Request :=
  match handleAction_begin env mode st with
  | (st', Some request) => (handleAction_resume o st', [request])
  | (st', None) => (st', [])
  end.

Definition handleClear (st : SessionState) : SessionState :=
  let st := setCode [] st in
  let st := setResult null st in
  let st := setResultMode null st in
  setError None st.

(** *** The component as a transition system *)

(** What can happen to a mounted [App]. *)
Inductive Event : Type :=
| TypeCode (text : jsstring)           (* textarea [onChange] *)
| SelectLanguage (lang : jsstring)     (* select [onChange] *)
| ClickAction (mode : Mode)            (* one of the four action buttons *)
| ClickClear                           (* a Clear button *)
| ServiceResponds (o : FetchOutcome).  (* the awaited [fetch] settles *)

(** The session state together with the number of calls of
    [handleAction] suspended at [await]. *)
Record App : Type := {
  session : SessionState;
  pending : nat
}.

Definition mounted : App := {| session := initial; pending := 0 |}.

(** The action buttons are rendered with [disabled={loading}], so a click
    reaches [handleAction] only while [loading] is false.  The Clear
    buttons belong to the result views; the relation lets [handleClear]
    run in every state, which only adds behaviours. *)
Inductive step (env : option jsstring) : App -> Event -> App -> Prop :=
| step_type : forall a text,
    step env a (TypeCode text)
         {| session := setCode text (session a); pending := pending a |}
| step_language : forall a lang,
    step env a (SelectLanguage lang)
         {| session := setLanguage lang (session a); pending := pending a |}
| step_click_rejected : forall a mode st',
    loading (session a) = false ->
    handleAction_begin env mode (session a) = (st', None) ->
    step env a (ClickAction mode)
         {| session := st'; pending := pending a |}
| step_click_accepted : forall a mode st' request,
    loading (session a) = false ->
    handleAction_begin env mode (session a) = (st', Some request) ->
    step env a (ClickAction mode)
         {| session := st'; pending := S (pending a) |}
| step_clear : forall a,
    step env a ClickClear
         {| session := handleClear (session a); pending := pending a |}
| step_response : forall a n o,
    pending a = S n ->
    step env a (ServiceResponds o)
         {| session := handleAction_resume o (session a); pending := n |}.

(** States reached from the mounted component. *)
Inductive reachable (env : option jsstring) : App -> Prop :=
| reachable_mounted : reachable env mounted
| reachable_step : forall a e a',
    reachable env a -> step env a e a' -> reachable env a'.

(** The same steps as a function, for running traces. *)
Definition react (env : option jsstring) (a : App) (e : Event) : App :=
  match e with
  | TypeCode text =>
      {| session := setCode text (session a); pending := pending a |}
  | SelectLanguage lang =>
      {| session := setLanguage lang (session a); pending := pending a |}
  | ClickAction mode =>
      if loading (session a) then a
      else match handleAction_begin env mode (session a) with
           | (st', Some _) => {| session := st'; pending := S (pending a) |}
           | (st', None) => {| session := st'; pending := pending a |}
           end
  | ClickClear =>
      {| session := handleClear (session a); pending := pending a |}
  | ServiceResponds o =>
      match pending a with
      | S n => {| session := handleAction_resume o (session a); pending := n |}
      | O => a
      end
  end.

Definition run (env : option jsstring) (events : list Event) : App :=
  fold_left (react env) events mounted.

(** The state [handleAction] leaves when it starts awaiting [fetch]. *)
Definition awaiting (mode : Mode) (st : SessionState) : SessionState :=
  setResultMode null
    (setResult null
       (setError None (setLoadingMode (Some mode) (setLoading true st)))).

(** The invariant of the transition system: either nothing is in flight
    and the buttons are enabled, or exactly one call is suspended, with
    the outcome cells cleared. *)
Definition consistent (a : App) : Prop :=
  let st := session a in
  (pending a = 0 /\ loading st = false /\ loadingMode st = None /\
   (result st = null \/ error st = None \/ error st = Some validationMessage))
  \/
  (pending a = 1 /\ loading st = true /\ loadingMode st <> None /\
   result st = null /\ error st = None).

End Orchestrator.
Import Orchestrator.

(** ** Scenarios used as examples *)

Module Scenarios.

(** A review answer used in the examples:
    [{summary: "ok", rating: 8}]. *)
Definition reviewData : json :=
  JObj [(js "summary", JStr (js "ok")); (js "rating", JNum 8)].

(** The envelope [{success: true, mode: m, data: d}]. *)
Definition successBody (m : String.string) (d : json) : json :=
  JObj [(js "success", JBool true); (js "mode", JStr (js m)); (js "data", d)].

(** A service answer with status 200 and a JSON body. *)
Definition answers (parsed : json) : FetchOutcome :=
  Responded {| status := 200; json_ := inr parsed |}.

(** The session after the user typed [x=1]. *)
Definition typed : SessionState := setCode (js "x=1") initial.

(** The user types [x=1], asks for a review, the service answers with
    [reviewData], the user blanks the text area and asks again. *)
Definition reviewThenBlank : list Event :=
  [TypeCode (js "x=1"); ClickAction Review;
   ServiceResponds (answers (successBody "review" reviewData));
   TypeCode (js "  "); ClickAction Review].

(** Status 500 with an empty body: [response.json()] rejects, in V8 with
    this message. *)
Definition emptyBody500 : FetchOutcome :=
  Responded {| status := 500;
               json_ := inl (js "Unexpected end of JSON input") |}.

End Scenarios.
Import Scenarios.

(** ** Visual encoder: [getComplexityColor] and [getComplexityWidth] *)

Module Encoder.

(** The text "o(n²)": the superscript two is the code unit U+00B2. *)
Definition o_n_squared : jsstring := js "o(n" ++ [178%N] ++ js ")".

(** The argument is a string, or [None] for [null] and [undefined]
    (an absent [timeComplexity] or [spaceComplexity]). *)
Definition getComplexityColor (complexity : option jsstring) : jsstring :=
  match complexity with
  | None => js "#666"
  | Some complexity =>
      if negb (nonEmpty complexity) then js "#666" else
      let comp := toLowerCase complexity in
      if includes (js "o(1)") comp then js "#4caf50" else
      if includes (js "o(log n)") comp || includes (js "o(n)") comp
      then js "#8bc34a" else
      if includes (js "o(n log n)") comp then js "#ffc107" else
      if includes o_n_squared comp || includes (js "o(n^2)") comp
      then js "#ff9800" else
      if includes (js "o(2^n)") comp || includes (js "o(n!)") comp
      then js "#f44336" else
      js "#666"
  end.

Definition getComplexityWidth (complexity : option jsstring) : jsstring :=
  match complexity with
  | None => js "50%"
  | Some complexity =>
      if negb (nonEmpty complexity) then js "50%" else
      let comp := toLowerCase complexity in
      if includes (js "o(1)") comp then js "10%" else
      if includes (js "o(log n)") comp then js "20%" else
      if includes (js "o(n)") comp then js "30%" else
      if includes (js "o(n log n)") comp then js "50%" else
      if includes o_n_squared comp || includes (js "o(n^2)") comp
      then js "70%" else
      if includes (js "o(2^n)") comp || includes (js "o(n!)") comp
      then js "90%" else
      js "50%"
  end.

(** The number a CSS percentage such as "30%" stands for: its leading
    decimal digits. *)
Fixpoint digits (acc : N) (w : jsstring) : N :=
  match w with
  | c :: t =>
      if ((48 <=? c) && (c <=? 57))%N then digits (10 * acc + (c - 48)) t
      else acc
  | [] => acc
  end.

Definition percent (w : jsstring) : N := digits 0 w.

(** The complexity classes in the order of growth, as the service
    writes them. *)
Definition O_1 : jsstring := js "O(1)".
Definition O_log_n : jsstring := js "O(log n)".
Definition O_n : jsstring := js "O(n)".
Definition O_n_log_n : jsstring := js "O(n log n)".
Definition O_n_squared : jsstring := js "O(n" ++ [178%N] ++ js ")".
Definition O_n_caret_2 : jsstring := js "O(n^2)".
Definition O_2_n : jsstring := js "O(2^n)".
Definition O_n_factorial : jsstring := js "O(n!)".

Definition orderedClasses : list jsstring :=
  [O_1; O_log_n; O_n; O_n_log_n; O_n_squared; O_2_n].

(** The text the patterns are searched in: the lower-cased argument, and
    nothing when the argument is null. *)
Definition lowered (complexity : option jsstring) : jsstring :=
  match complexity with
  | Some s => toLowerCase s
  | None => []
  end.

(** A text in which one of the eight patterns occurs. *)
Definition recognized (comp : jsstring) : Prop :=
  contains (js "o(1)") comp \/ contains (js "o(log n)") comp \/
  contains (js "o(n)") comp \/ contains (js "o(n log n)") comp \/
  contains o_n_squared comp \/ contains (js "o(n^2)") comp \/
  contains (js "o(2^n)") comp \/ contains (js "o(n!)") comp.

Definition palette : list jsstring :=
  [js "#4caf50"; js "#8bc34a"; js "#ffc107"; js "#ff9800"; js "#f44336";
   js "#666"].

(** The widths in the order of the classes. *)
Definition widthTable : list jsstring :=
  [js "10%"; js "20%"; js "30%"; js "50%"; js "70%"; js "90%"].

(** The class of a lower-cased text: its rank [k] in the order O(1),
    O(log n), O(n), O(n log n), O(n²), O(2^n), when the pattern of that
    class is the first one found in it. *)
Definition firstFound (k : nat) (comp : jsstring) : Prop :=
  match k with
  | 0 => contains (js "o(1)") comp
  | 1 => ~ contains (js "o(1)") comp /\ contains (js "o(log n)") comp
  | 2 => ~ contains (js "o(1)") comp /\ ~ contains (js "o(log n)") comp /\
         contains (js "o(n)") comp
  | 3 => ~ contains (js "o(1)") comp /\ ~ contains (js "o(log n)") comp /\
         ~ contains (js "o(n)") comp /\ contains (js "o(n log n)") comp
  | 4 => ~ contains (js "o(1)") comp /\ ~ contains (js "o(log n)") comp /\
         ~ contains (js "o(n)") comp /\ ~ contains (js "o(n log n)") comp /\
         (contains o_n_squared comp \/ contains (js "o(n^2)") comp)
  | 5 => ~ contains (js "o(1)") comp /\ ~ contains (js "o(log n)") comp /\
         ~ contains (js "o(n)") comp /\ ~ contains (js "o(n log n)") comp /\
         ~ contains o_n_squared comp /\ ~ contains (js "o(n^2)") comp /\
         (contains (js "o(2^n)") comp \/ contains (js "o(n!)") comp)
  | _ => False
  end.

(** Two code units that are the same, or the same ASCII letter in its
    two cases. *)
Definition sameLetter (a b : N) : Prop :=
  a = b \/ ((65 <= a <= 90)%N /\ b = (a + 32)%N)
        \/ ((65 <= b <= 90)%N /\ a = (b + 32)%N).

(** Two texts that differ at most in the case of their ASCII letters. *)
Definition sameUpToCase (s t : jsstring) : Prop := Forall2 sameLetter s t.

End Encoder.
Import Encoder.

(** ** Text formatter: [formatExplanation] *)

Module Formatter.

Local Open Scope N_scope.

Definition asterisk : N := 42.
Definition backtick : N := 96.
Definition LF : N := 10.
Definition quote : N := 34.

(** *** [/\*\*(.*?)\*\*/g] *)

(** [(.*?)\*\*] read at the head of [s]: the lazy star takes code units,
    none of them a line terminator, up to the first place where two
    asterisks follow.  The result is the capture and what follows the
    match. *)
Fixpoint lazyToBoldClose (s : jsstring) : option (jsstring * jsstring) :=
  if startsWith [asterisk; asterisk] s then Some ([], skipn 2 s)
  else
    match s with
    | c :: t =>
        if isLineTerminator c then None
        else match lazyToBoldClose t with
             | Some (cap, rest) => Some (c :: cap, rest)
             | None => None
             end
    | [] => None
    end.

(** The whole expression tried at the head of [s]. *)
Definition matchBold (s : jsstring) : option (jsstring * jsstring) :=
  if startsWith [asterisk; asterisk] s then lazyToBoldClose (skipn 2 s)
  else None.

(** [s.replace(/\*\*(.*?)\*\*/g, '<strong>$1</strong>')]: matches are
    looked for from left to right, the search resuming after each
    match.  [fuel] bounds the number of positions visited. *)
Fixpoint replaceBold_from (fuel : nat) (s : jsstring) : jsstring :=
  match fuel with
  | O => s
  | S fuel =>
      match s with
      | [] => []
      | c :: t =>
          match matchBold s with
          | Some (cap, rest) =>
              js "<strong>" ++ cap ++ js "</strong>"
              ++ replaceBold_from fuel rest
          | None => c :: replaceBold_from fuel t
          end
      end
  end.

Definition replaceBold (s : jsstring) : jsstring :=
  replaceBold_from (length s) s.

(** *** The italic expression

    In the source it is written with escaped asterisks; here the class
    [[*]] stands for the escaped asterisk:
    [/(?<![*])[*](?![*])(.*?)(?<![*])[*](?![*])/g]. *)

Definition isAsterisk (c : option N) : bool :=
  match c with Some c => c =? asterisk | None => false end.

(** [(?<![*])[*](?![*])] at the head of [s], where [prev] is the code unit
    before [s] in the subject ([None] at its start): an asterisk with no
    asterisk on either side.  The result is what follows it. *)
Definition loneAsterisk (prev : option N) (s : jsstring) : option jsstring :=
  match s with
  | c :: t =>
      if (c =? asterisk) && negb (isAsterisk prev)
         && negb (isAsterisk (hd_error t))
      then Some t else None
  | [] => None
  end.

(** [(.*?)(?<![*])[*](?![*])] read at the head of [s], [prev] being the
    code unit before it. *)
Fixpoint lazyToItalicClose (prev : N) (s : jsstring)
  : option (jsstring * jsstring) :=
  match s with
  | c :: t =>
      match loneAsterisk (Some prev) s with
      | Some rest => Some ([], rest)
      | None =>
          if isLineTerminator c then None
          else match lazyToItalicClose c t with
               | Some (cap, rest) => Some (c :: cap, rest)
               | None => None
               end
      end
  | [] => None
  end.

Definition matchItalic (prev : option N) (s : jsstring)
  : option (jsstring * jsstring) :=
  match loneAsterisk prev s with
  | Some t => lazyToItalicClose asterisk t
  | None => None
  end.

(** The replacement with ['<em>$1</em>'].  A match ends with its
    closing asterisk, which is what the look-behind of the next attempt
    sees. *)
Fixpoint replaceItalic_from (fuel : nat) (prev : option N) (s : jsstring)
  : jsstring :=
  match fuel with
  | O => s
  | S fuel =>
      match s with
      | [] => []
      | c :: t =>
          match matchItalic prev s with
          | Some (cap, rest) =>
              js "<em>" ++ cap ++ js "</em>"
              ++ replaceItalic_from fuel (Some asterisk) rest
          | None => c :: replaceItalic_from fuel (Some c) t
          end
      end
  end.

Definition replaceItalic (s : jsstring) : jsstring :=
  replaceItalic_from (length s) None s.

(** *** [/`([^`]+)`/g] *)

(** [[^`]*`] read greedily at the head of [s]: every code unit up to
    the next backtick, line terminators included. *)
Fixpoint toBacktick (s : jsstring) : option (jsstring * jsstring) :=
  match s with
  | c :: t =>
      if c =? backtick then Some ([], t)
      else match toBacktick t with
           | Some (cap, rest) => Some (c :: cap, rest)
           | None => None
           end
  | [] => None
  end.

(** The whole expression at the head of [s]; the class must take at
    least one code unit. *)
Definition matchCode (s : jsstring) : option (jsstring * jsstring) :=
  match s with
  | c :: t =>
      if c =? backtick then
        match toBacktick t with
        | Some (cap, rest) => if nonEmpty cap then Some (cap, rest) else None
        | None => None
        end
      else None
  | [] => None
  end.

Definition codeOpen : jsstring :=
  js "<code class=" ++ [quote] ++ js "inline-code" ++ [quote] ++ js ">".

Fixpoint replaceCode_from (fuel : nat) (s : jsstring) : jsstring :=
  match fuel with
  | O => s
  | S fuel =>
      match s with
      | [] => []
      | c :: t =>
          match matchCode s with
          | Some (cap, rest) =>
              codeOpen ++ cap ++ js "</code>" ++ replaceCode_from fuel rest
          | None => c :: replaceCode_from fuel t
          end
      end
  end.

Definition replaceCode (s : jsstring) : jsstring :=
  replaceCode_from (length s) s.

(** *** [split(/\n\n+/)] *)

Fixpoint dropLF (s : jsstring) : jsstring :=
  match s with
  | c :: t => if c =? LF then dropLF t else s
  | [] => []
  end.

(** [/\n\n+/] at the head of [s]: two line feeds and all that follow. *)
Definition matchBlankLine (s : jsstring) : option jsstring :=
  if startsWith [LF; LF] s then Some (dropLF s) else None.

(** The pieces between the separators, empty ones included. *)
Fixpoint split_from (fuel : nat) (s : jsstring) : list jsstring :=
  match fuel with
  | O => [s]
  | S fuel =>
      match s with
      | [] => [[]]
      | c :: t =>
          match matchBlankLine s with
          | Some rest => [] :: split_from fuel rest
          | None =>
              match split_from fuel t with
              | piece :: pieces => (c :: piece) :: pieces
              | [] => [[c]]
              end
          end
      end
  end.

Definition splitParagraphs (s : jsstring) : list jsstring :=
  split_from (length s) s.

(** [para.replace(/\n/g, '<br>')] *)
Definition lineBreaks (para : jsstring) : jsstring :=
  flat_map (fun c => if c =? LF then js "<br>" else [c]) para.

(** The array that [join('')] receives: one element for each paragraph
    kept. *)
Definition paragraphs (text : jsstring) : list jsstring :=
  let formatted := replaceCode (replaceItalic (replaceBold text)) in
  let paras := map trim (splitParagraphs formatted) in
  let paras := filter nonEmpty paras in
  map (fun para => js "<p>" ++ lineBreaks para ++ js "</p>") paras.

(** The argument is a string, or [None] for [null] and [undefined]. *)
Definition formatExplanation (text : option jsstring) : jsstring :=
  match text with
  | None => []
  | Some text =>
      if negb (nonEmpty text) then []
      else concat (paragraphs text)
  end.

(** No code unit of [s] ends a line. *)
Definition singleLine (s : jsstring) : Prop :=
  Forall (fun c => isLineTerminator c = false) s.

(** No code unit of [s] is [d]. *)
Definition free (d : N) (s : jsstring) : Prop :=
  Forall (fun c => c <> d) s.

(** The fragment for the paragraph with the three spans. *)
Definition threeSpans : jsstring :=
  js "<p><strong>a</strong> and <em>b</em> and <code class="
  ++ [quote] ++ js "inline-code" ++ [quote] ++ js ">c</code></p>".

End Formatter.
Import Formatter.

(** ** Issue badges: [getSeverityColor] and [getTypeColor] *)

Module Badges.

(** The argument is a string, or [None] for [null] and [undefined], for
    which [severity?.toLowerCase()] is [undefined] and the [switch]
    falls to [default].  The cases are compared with [===], in the
    order written.  What is said of [toLowerCase] for the searches holds
    for these comparisons too: no text with a code unit outside ASCII
    lower-cases to one of the case labels. *)
Definition getSeverityColor (severity : option jsstring) : jsstring :=
  match severity with
  | None => js "#666"
  | Some severity =>
      let key := toLowerCase severity in
      if JsString.eqb key (js "critical") then js "#f44336" else
      if JsString.eqb key (js "high") then js "#ff5722" else
      if JsString.eqb key (js "medium") then js "#ff9800" else
      if JsString.eqb key (js "low") then js "#4caf50" else
      js "#666"
  end.

Definition getTypeColor (type : option jsstring) : jsstring :=
  match type with
  | None => js "#666"
  | Some type =>
      let key := toLowerCase type in
      if JsString.eqb key (js "bug") then js "#f44336" else
      if JsString.eqb key (js "security") then js "#e91e63" else
      if JsString.eqb key (js "performance") then js "#ff9800" else
      if JsString.eqb key (js "best_practice") then js "#2196f3" else
      js "#666"
  end.

End Badges.
Import Badges.

(** ** Text without markup *)

Module PlainText.

(** A text with no asterisk, no backtick and no line feed. *)
Definition plain (s : jsstring) : Prop :=
  free asterisk s /\ free backtick s /\ free LF s.

End PlainText.
Import PlainText.

(** ** The code unit [getApiUrl] looks for *)

Module Url.

(** U+002F, the slash. *)
Definition slash : N := 47.

End Url.
Import Url.

(** ** Presentation: which parts of the page the state selects *)

Module Presentation.

(** [resultMode === name], a strict comparison with a string. *)
Definition isMode (resultMode : value) (name : jsstring) : bool :=
  match resultMode with
  | Json (JStr s) => JsString.eqb s name
  | _ => false
  end.

(** [result.name], read where [result] is known to be truthy, for the
    names [fixedCode], [optimizedCode] and [explanation]: an object
    answers from its fields, every other truthy value with
    [undefined]. *)
Definition member (x : value) (name : String.string) : value :=
  match x with
  | Json (JObj fields) => lookup (js name) fields
  | _ => Undefined
  end.

(** What a child expression of the JSX tree comes to.  For the three
    kinds of section only the choice and the value handed over are
    modelled, not what is drawn inside. *)
Inductive Child : Type :=
| Hidden                                   (* false, null, undefined *)
| Stray (text : jsstring)                  (* a falsy 0 or '' left by && *)
| ErrorMessage (message : jsstring)        (* the error box *)
| ReviewFragment (result : value)          (* the review sections *)
| CodeBlock (title : jsstring) (code : value)
| Explanation (text : value).              (* [formatExplanation(text)] *)

(** The value of [v && ...] when [v] is falsy is [v] itself, which
    React draws as text when it is a number or a string. *)
Definition leftBy (v : value) : Child :=
  match v with
  | Json (JNum _) => Stray (js "0")
  | Json (JStr _) => Stray []
  | _ => Hidden
  end.

(** [v && child] *)
Definition andThen (v : value) (child : Child) : Child :=
  if truthy v then child else leftBy v.

(** The [div] of class [review-results]. *)
Record Panel : Type := {
  heading : jsstring;       (* the text of the [h2] *)
  forReview : Child;
  forFix : Child;
  forOptimize : Child;
  forExplain : Child
}.

Definition panelOf (result resultMode : value) : Panel :=
  {| heading :=
       (if isMode resultMode (js "review") then js "Review Results" else [])
       ++ (if isMode resultMode (js "fix") then js "Fixed Code" else [])
       ++ (if isMode resultMode (js "optimize") then js "Optimized Code" else [])
       ++ (if isMode resultMode (js "explain") then js "Code Explanation" else []);
     forReview :=
       if isMode resultMode (js "review") then ReviewFragment result else Hidden;
     forFix :=
       if isMode resultMode (js "fix") then
         andThen (member result "fixedCode")
                 (CodeBlock (js "Corrected Code") (member result "fixedCode"))
       else Hidden;
     forOptimize :=
       if isMode resultMode (js "optimize") then
         andThen (member result "optimizedCode")
                 (CodeBlock (js "Optimized Code") (member result "optimizedCode"))
       else Hidden;
     forExplain :=
       if isMode resultMode (js "explain") then
         andThen (member result "explanation")
                 (Explanation (member result "explanation"))
       else Hidden |}.

(** [{error && ...}] and [{result && ...}], the two children of the page
    that depend on the outcome. *)
Record Page : Type := {
  errorBox : Child;
  resultsPanel : Child + Panel   (* [inl]: what a falsy [result] leaves *)
}.

Definition page (st : SessionState) : Page :=
  {| errorBox :=
       match error st with
       | None => Hidden
       | Some message =>
           if nonEmpty message then ErrorMessage message else Stray []
       end;
     resultsPanel :=
       if truthy (result st) then inr (panelOf (result st) (resultMode st))
       else inl (leftBy (result st)) |}.

(** The sections, and only they, hold a Clear button. *)
Definition hasClear (c : Child) : bool :=
  match c with
  | ReviewFragment _ | CodeBlock _ _ | Explanation _ => true
  | _ => false
  end.

Definition sections (p : Panel) : list Child :=
  [forReview p; forFix p; forOptimize p; forExplain p].

(** The number of Clear buttons on the page. *)
Definition clearButtons (st : SessionState) : nat :=
  match resultsPanel (page st) with
  | inr p => length (filter hasClear (sections p))
  | inl _ => 0
  end.

(** [formatExplanation(text)] for whatever value [text] is: a falsy
    value gives the empty string, a string is formatted, and on every
    other value [text.replace] is not a function (the message is
    V8's). *)
Definition formatExplanationOf (text : value) : exc jsstring :=
  match text with
  | Json (JStr s) => Return (formatExplanation (Some s))
  | _ => if truthy text then Throw (js "text.replace is not a function")
         else Return []
  end.

(** The markup of the explanation section, when that section is
    chosen. *)
Definition explanationHtml (st : SessionState) : option (exc jsstring) :=
  match resultsPanel (page st) with
  | inr p =>
      match forExplain p with
      | Explanation text => Some (formatExplanationOf text)
      | _ => None
      end
  | inl _ => None
  end.

(** The text of the [h2] for each mode. *)
Definition title (m : Mode) : jsstring :=
  match m with
  | Review => js "Review Results"
  | Fix => js "Fixed Code"
  | Optimize => js "Optimized Code"
  | Explain => js "Code Explanation"
  end.

(** A panel with its heading and no section. *)
Definition headingOnly (h : jsstring) : Panel :=
  {| heading := h; forReview := Hidden; forFix := Hidden;
     forOptimize := Hidden; forExplain := Hidden |}.

End Presentation.
Import Presentation.

(** * Properties *)

(** ** Strings *)

Module JsStringFacts.

Lemma startsWith_iff (p s : jsstring) :
  startsWith p s = true <-> exists after, s = p ++ after.
Proof.
  revert s; induction p as [|a p IH]; intros s; simpl.
  - split; [intros _; now exists s | reflexivity].
  - destruct s as [|b s].
    + split; [discriminate | intros [after H]; discriminate].
    + rewrite andb_true_iff, N.eqb_eq, IH. split.
      * intros [-> [after ->]]. now exists after.
      * intros [after H]. injection H as -> ->. split; [reflexivity | now exists after].
Qed.

Lemma includes_iff (p s : jsstring) :
  includes p s = true <-> contains p s.
Proof.
  unfold contains. induction s as [|c s IH].
  - simpl. rewrite orb_false_r, startsWith_iff. split.
    + intros [after H]. now exists [], after.
    + intros [before [after H]]. destruct before; simpl in H.
      * now exists after.
      * discriminate.
  - cbn [includes]. rewrite orb_true_iff, startsWith_iff, IH. split.
    + intros [[after H] | [before [after H]]].
      * now exists [], after.
      * exists (c :: before), after. now rewrite H.
    + intros [before [after H]]. destruct before as [|b before]; simpl in H.
      * left. now exists after.
      * right. injection H as _ H. now exists before, after.
Qed.

Lemma includes_false_iff (p s : jsstring) :
  includes p s = false <-> ~ contains p s.
Proof.
  rewrite <- includes_iff. destruct (includes p s); split; congruence.
Qed.

Lemma trimStart_nil_iff (s : jsstring) :
  trimStart s = [] <-> Forall (fun c => isTrimmed c = true) s.
Proof.
  induction s as [|c s IH]; simpl.
  - split; [constructor | reflexivity].
  - destruct (isTrimmed c) eqn:E.
    + rewrite IH. split; [now constructor | now inversion 1].
    + split; [discriminate | inversion 1; congruence].
Qed.

Lemma trimStart_idem (s : jsstring) : trimStart (trimStart s) = trimStart s.
Proof.
  induction s as [|c s IH]; simpl; [reflexivity|].
  destruct (isTrimmed c) eqn:E; [exact IH|].
  simpl. now rewrite E.
Qed.

(** The trimmed string is empty exactly when the string is made of
    white space and line terminators only. *)
Lemma trim_nil_iff (s : jsstring) :
  trim s = [] <-> Forall (fun c => isTrimmed c = true) s.
Proof.
  unfold trim, trimEnd. split.
  - intros H. apply (f_equal (@rev N)) in H. rewrite rev_involutive in H.
    change (rev (@nil N)) with (@nil N) in H.
    apply (proj1 (trimStart_nil_iff _)) in H.
    apply Forall_rev in H. rewrite rev_involutive in H.
    apply (proj2 (trimStart_nil_iff _)) in H.
    rewrite trimStart_idem in H.
    apply (proj1 (trimStart_nil_iff _)) in H. exact H.
  - intros H. apply trimStart_nil_iff in H. rewrite H. reflexivity.
Qed.

Lemma nonEmpty_true_iff (s : jsstring) : nonEmpty s = true <-> s <> [].
Proof. destruct s; simpl; split; congruence. Qed.

Lemma nonEmpty_false_iff (s : jsstring) : nonEmpty s = false <-> s = [].
Proof. destruct s; simpl; split; congruence. Qed.

End JsStringFacts.
Import JsStringFacts.


(** ** Request orchestrator *)

Module OrchestratorFacts.


Lemma begin_rejected env mode st :
  trim (code st) = [] ->
  handleAction_begin env mode st = (setError (Some validationMessage) st, None).
Proof.
  intros H. unfold handleAction_begin. now rewrite H.
Qed.

Lemma begin_accepted env mode st :
  trim (code st) <> [] ->
  handleAction_begin env mode st =
    (awaiting mode st,
     Some {| url := getApiUrl env (js "/api/review");
             body_code := code st; body_language := language st;
             body_mode := mode |}).
Proof.
  intros H. unfold handleAction_begin.
  apply nonEmpty_true_iff in H. now rewrite H.
Qed.

Lemma begin_cases env mode st :
  (trim (code st) = [] /\
   handleAction_begin env mode st = (setError (Some validationMessage) st, None))
  \/
  (trim (code st) <> [] /\ exists request,
   handleAction_begin env mode st = (awaiting mode st, Some request)).
Proof.
  destruct (trim (code st)) as [|c t] eqn:E.
  - left. split; [reflexivity | now apply begin_rejected].
  - right. split; [discriminate|]. eexists. apply begin_accepted.
    rewrite E. discriminate.
Qed.

Lemma handleAction_accepted env mode o st :
  trim (code st) <> [] ->
  handleAction env mode o st =
    (handleAction_resume o (awaiting mode st),
     [{| url := getApiUrl env (js "/api/review");
         body_code := code st; body_language := language st;
         body_mode := mode |}]).
Proof.
  intros H. unfold handleAction. now rewrite begin_accepted.
Qed.

(** A 2xx answer whose body is an object with a truthy [success]. *)
Lemma tryBody_success r fields :
  ok r = true -> json_ r = inr (JObj fields) ->
  truthy (lookup (js "success") fields) = true ->
  tryBody (Responded r) =
    Return (lookup (js "data") fields, lookup (js "mode") fields).
Proof.
  intros Hok Hbody Hs. unfold tryBody. rewrite Hbody, Hok.
  cbn [negb getProp bind]. now rewrite Hs.
Qed.

(** The [try] block completes only on such an answer. *)
Lemma tryBody_Return_inv o d m :
  tryBody o = Return (d, m) ->
  exists r fields,
    o = Responded r /\ ok r = true /\ json_ r = inr (JObj fields) /\
    truthy (lookup (js "success") fields) = true /\
    d = lookup (js "data") fields /\ m = lookup (js "mode") fields.
Proof.
  destruct o as [message | r]; [discriminate|].
  unfold tryBody. destruct (json_ r) as [message | parsed] eqn:Hbody;
    [discriminate|].
  destruct (ok r) eqn:Hok; cbn [negb].
  - destruct parsed; cbn [getProp bind truthy]; try discriminate.
    destruct (truthy (lookup (js "success") fields)) eqn:Hs;
      cbn [bind]; [|discriminate].
    intros H. injection H as <- <-.
    exists r, fields. repeat split; assumption.
  - destruct parsed; cbn [getProp bind]; discriminate.
Qed.

Lemma resume_finalizes o st :
  loading (handleAction_resume o st) = false /\
  loadingMode (handleAction_resume o st) = None.
Proof.
  unfold handleAction_resume. destruct (tryBody o) as [[d m] | message];
    split; reflexivity.
Qed.

Lemma resume_exclusive o st :
  result st = null -> error st = None ->
  result (handleAction_resume o st) = null \/
  error (handleAction_resume o st) = None.
Proof.
  intros Hr He. unfold handleAction_resume.
  destruct (tryBody o) as [[d m] | message]; simpl.
  - right. exact He.
  - left. exact Hr.
Qed.

Lemma step_consistent env a e a' :
  consistent a -> step env a e a' -> consistent a'.
Proof.
  unfold consistent. intros Inv Hstep.
  destruct Hstep as [a text | a lang | a mode st' Hl Hb | a mode st' rq Hl Hb
                    | a | a n o Hp]; cbn [session pending].
  - exact Inv.
  - exact Inv.
  - destruct Inv as [(P & L & M & X) | (P & L & _)]; [|congruence].
    destruct (begin_cases env mode (session a)) as [[_ E] | [_ [rq E]]];
      rewrite E in Hb; [|discriminate].
    injection Hb as <-. left. cbn. repeat split; auto.
  - destruct Inv as [(P & L & M & X) | (P & L & _)]; [|congruence].
    destruct (begin_cases env mode (session a)) as [[_ E] | [_ [rq' E]]];
      rewrite E in Hb; [discriminate|].
    injection Hb as <- _. right. rewrite P. cbn.
    repeat split; auto. discriminate.
  - destruct Inv as [(P & L & M & X) | (P & L & M & R & E)].
    + left. cbn. repeat split; auto.
    + right. cbn. repeat split; auto.
  - destruct Inv as [(P & _) | (P & L & M & R & E)]; [congruence|].
    left. destruct (resume_finalizes o (session a)) as [F1 F2].
    repeat split; try assumption; [congruence|].
    destruct (resume_exclusive o (session a) R E); auto.
Qed.

Lemma reachable_consistent env a : reachable env a -> consistent a.
Proof.
  induction 1 as [|a e a' _ IH Hstep].
  - left. cbn. repeat split; auto.
  - exact (step_consistent env a e a' IH Hstep).
Qed.

Lemma react_reachable env a e :
  reachable env a -> reachable env (react env a e).
Proof.
  intros Ha. destruct e as [text | lang | mode | | o]; cbn [react].
  - eapply reachable_step; [exact Ha | apply step_type].
  - eapply reachable_step; [exact Ha | apply step_language].
  - destruct (loading (session a)) eqn:L; [exact Ha|].
    destruct (handleAction_begin env mode (session a)) as [st' [rq|]] eqn:E.
    + eapply reachable_step; [exact Ha | eapply step_click_accepted; eauto].
    + eapply reachable_step; [exact Ha | eapply step_click_rejected; eauto].
  - eapply reachable_step; [exact Ha | apply step_clear].
  - destruct (pending a) as [|n] eqn:P; [exact Ha|].
    eapply reachable_step; [exact Ha | now apply step_response].
Qed.

(** Every trace of events leads to a reachable state. *)
Lemma run_reachable env events : reachable env (run env events).
Proof.
  unfold run. generalize mounted (reachable_mounted env).
  induction events as [|e events IH]; intros a Ha; cbn [fold_left].
  - exact Ha.
  - apply IH. now apply react_reachable.
Qed.

End OrchestratorFacts.
Import OrchestratorFacts.

Module OrchestratorSpec.


(** C1, refuted as stated: after a review that succeeded, a run started
    with blank code is rejected, sets [error] and keeps the held result;
    the state reached has both [result] and [error] non-null. *)
Lemma rejected_run_keeps_result_counterexample :
  ~ (forall a, reachable None a ->
       result (session a) = null \/ error (session a) = None).
Proof.
  intros H.
  specialize (H (run None reviewThenBlank) (run_reachable None reviewThenBlank)).
  vm_compute in H. destruct H as [H | H]; discriminate H.
Qed.

(** C1, as amended: in every reachable state, [result] and [error] are
    both non-null only when [error] is the validation message; every step
    other than a run rejected for blank code keeps at most one of them
    non-null; and a rejected run sets [error] to the validation message
    and leaves [result] as it was. *)
Theorem result_error_exclusive_but_for_rejected_run env a :
  reachable env a ->
  (result (session a) = null \/ error (session a) = None \/
   error (session a) = Some validationMessage)
  /\
  (forall e a',
     step env a e a' ->
     result (session a) = null \/ error (session a) = None ->
     (forall mode, e = ClickAction mode -> trim (code (session a)) <> []) ->
     result (session a') = null \/ error (session a') = None)
  /\
  (forall mode a',
     step env a (ClickAction mode) a' ->
     trim (code (session a)) = [] ->
     result (session a') = result (session a) /\
     error (session a') = Some validationMessage).
Proof.
  intros Hreach. pose proof (reachable_consistent env a Hreach) as Inv.
  split; [|split].
  - destruct Inv as [(_ & _ & _ & X) | (_ & _ & _ & R & _)]; auto.
  - intros e a' Hstep Hex Hacc.
    destruct Hstep as [a text | a lang | a mode st' Hl Hb | a mode st' rq Hl Hb
                      | a | a n o Hp]; cbn [session].
    + exact Hex.
    + exact Hex.
    + specialize (Hacc mode eq_refl).
      rewrite (begin_accepted env mode _ Hacc) in Hb. discriminate.
    + specialize (Hacc mode eq_refl).
      rewrite (begin_accepted env mode _ Hacc) in Hb.
      injection Hb as <- _. now left.
    + now left.
    + destruct Inv as [(P & _) | (_ & _ & _ & R & E)]; [congruence|].
      now apply resume_exclusive.
  - intros mode a' Hstep Hblank.
    inversion Hstep as [ | | a0 mode0 st' Hl Hb | a0 mode0 st' rq Hl Hb | | ];
      subst; rewrite (begin_rejected env mode _ Hblank) in Hb.
    + injection Hb as <-. cbn. auto.
    + discriminate.
Qed.

Lemma result_error_exclusive_but_for_rejected_run_witness :
  reachable None (run None reviewThenBlank) /\
  (result (session (run None reviewThenBlank)) = null \/
   error (session (run None reviewThenBlank)) = None \/
   error (session (run None reviewThenBlank)) = Some validationMessage).
Proof.
  split.
  - apply run_reachable.
  - apply (result_error_exclusive_but_for_rejected_run None _
             (run_reachable None reviewThenBlank)).
Defined.

(** C2, the code at the failing input: the service answers 500 with a
    body that is not JSON.  [response.json()] is awaited before
    [response.ok] is looked at, so its rejection reaches [catch] and
    [error] becomes the parser's message, not the fallback
    "Failed to process code". *)
Lemma unparseable_500_shows_parser_message :
  let st' := fst (handleAction None Review emptyBody500 typed) in
  error st' = Some (js "Unexpected end of JSON input") /\
  error st' <> Some (js "Failed to process code") /\
  result st' = null.
Proof.
  vm_compute. repeat split; [discriminate].
Qed.

(** The same for every status and every parser message. *)
Lemma unparseable_body_shows_parser_message env mode st http message :
  trim (code st) <> [] ->
  let o := Responded {| status := http; json_ := inl message |} in
  error (fst (handleAction env mode o st)) = Some message.
Proof.
  intros H. cbv zeta. rewrite (handleAction_accepted env mode _ _ H).
  reflexivity.
Qed.

(** The fallback is what a non-2xx answer gets when its body parses to
    an object without a truthy [error]. *)
Lemma not_ok_without_error_shows_fallback env mode st r fields :
  trim (code st) <> [] ->
  ok r = false -> json_ r = inr (JObj fields) ->
  truthy (lookup (js "error") fields) = false ->
  error (fst (handleAction env mode (Responded r) st))
  = Some (js "Failed to process code").
Proof.
  intros H Hok Hbody He. rewrite (handleAction_accepted env mode _ _ H).
  cbn [fst]. unfold handleAction_resume, tryBody. rewrite Hbody, Hok.
  cbn [negb getProp bind]. unfold messageOr.
  destruct (lookup (js "error") fields) as [|j]; [reflexivity|].
  now rewrite He.
Qed.

(** C3, refuted as stated: a review is requested and the 2xx answer
    carries [mode: "fix"]; the run ends with a result whose [resultMode]
    is "fix", not the mode that was requested. *)
Lemma result_mode_from_body_counterexample :
  let st' := fst (handleAction None Review
                    (answers (successBody "fix" reviewData)) typed) in
  result st' <> null /\
  resultMode st' = Json (JStr (js "fix")) /\
  resultMode st' <> Json (JStr (modeName Review)).
Proof.
  vm_compute. repeat split; discriminate.
Qed.

(** When the body has no [mode] at all, [resultMode] is [undefined]. *)
Lemma result_mode_absent_example :
  let body := JObj [(js "success", JBool true); (js "data", reviewData)] in
  let st' := fst (handleAction None Review (answers body) typed) in
  result st' = Json reviewData /\ resultMode st' = Undefined.
Proof.
  vm_compute. split; reflexivity.
Qed.

(** C3, as amended: a run ends with a non-null [result] in one of two
    ways.  Either the code was not blank and the service answered 2xx
    with an object whose [success] is truthy: then [result] is the body's
    [data] and [resultMode] is the body's [mode] field, whatever mode was
    requested, so [resultMode] is the requested mode exactly when the
    body carries it.  Or the code was blank and the run was rejected:
    then nothing was sent and [result] and [resultMode] are the ones held
    before the run. *)
Theorem result_mode_is_mode_of_body env mode o st :
  result (fst (handleAction env mode o st)) <> null ->
  (trim (code st) <> [] /\
   exists r fields,
     o = Responded r /\ ok r = true /\ json_ r = inr (JObj fields) /\
     truthy (lookup (js "success") fields) = true /\
     result (fst (handleAction env mode o st)) = lookup (js "data") fields /\
     resultMode (fst (handleAction env mode o st)) = lookup (js "mode") fields /\
     (resultMode (fst (handleAction env mode o st)) = Json (JStr (modeName mode))
      <-> lookup (js "mode") fields = Json (JStr (modeName mode))))
  \/
  (trim (code st) = [] /\
   snd (handleAction env mode o st) = [] /\
   result (fst (handleAction env mode o st)) = result st /\
   resultMode (fst (handleAction env mode o st)) = resultMode st).
Proof.
  destruct (trim (code st)) as [|c t] eqn:B.
  - intros _. right. unfold handleAction.
    rewrite (begin_rejected env mode st B). repeat split.
  - assert (H : trim (code st) <> []) by (rewrite B; discriminate).
    rewrite <- B. rewrite (handleAction_accepted env mode _ _ H). cbn [fst].
    unfold handleAction_resume.
    destruct (tryBody o) as [[d m] | message] eqn:T.
    + intros _. left. split; [exact H|].
      destruct (tryBody_Return_inv _ _ _ T)
        as (r & fields & -> & Hok & Hbody & Hs & -> & ->).
      exists r, fields. cbn. repeat split; auto.
    + cbn. intros Hn. now contradiction Hn.
Qed.

Lemma result_mode_is_mode_of_body_witness :
  let o := answers (successBody "fix" reviewData) in
  result (fst (handleAction None Review o typed)) <> null /\
  ((trim (code typed) <> [] /\
    exists r fields,
      o = Responded r /\ ok r = true /\ json_ r = inr (JObj fields) /\
      truthy (lookup (js "success") fields) = true /\
      result (fst (handleAction None Review o typed)) = lookup (js "data") fields /\
      resultMode (fst (handleAction None Review o typed)) = lookup (js "mode") fields /\
      (resultMode (fst (handleAction None Review o typed)) = Json (JStr (modeName Review))
       <-> lookup (js "mode") fields = Json (JStr (modeName Review))))
   \/
   (trim (code typed) = [] /\
    snd (handleAction None Review o typed) = [] /\
    result (fst (handleAction None Review o typed)) = result typed /\
    resultMode (fst (handleAction None Review o typed)) = resultMode typed)).
Proof.
  cbv zeta.
  assert (H : result (fst (handleAction None Review
                 (answers (successBody "fix" reviewData)) typed)) <> null)
    by (vm_compute; discriminate).
  split; [exact H|].
  exact (result_mode_is_mode_of_body None Review
           (answers (successBody "fix" reviewData)) typed H).
Defined.

(** The second way, on the state of the first: a review is held, the
    text area is blanked and a fix is asked for; the run is rejected and
    the review and its mode stay. *)
Lemma rejected_run_keeps_result_mode_example :
  let held := fst (handleAction None Review
                     (answers (successBody "review" reviewData)) typed) in
  let st' := fst (handleAction None Fix (FetchRejected [])
                    (setCode (js "  ") held)) in
  result st' = Json reviewData /\
  resultMode st' = Json (JStr (js "review")) /\
  snd (handleAction None Fix (FetchRejected []) (setCode (js "  ") held)) = [].
Proof.
  vm_compute. repeat split.
Qed.

(** C4, refuted as stated: a fix is requested and the 2xx answer is
    [{success: true, mode: "fix", data: {}}], without [fixedCode]; the run
    ends with the empty object as [result] and no [error]. *)
Lemma missing_field_accepted_counterexample :
  let st' := fst (handleAction None Fix
                    (answers (successBody "fix" (JObj []))) typed) in
  result st' = Json (JObj []) /\ result st' <> null /\ error st' = None.
Proof.
  vm_compute. repeat split; discriminate.
Qed.

(** C4, as amended: no validation stands between the answer and the
    state.  For every 2xx answer whose body is an object with a truthy
    [success], [result] is the body's [data] as it came ([undefined] when
    the body has none), whatever fields it has or lacks, and [error] stays
    null. *)
Theorem success_data_is_stored_unvalidated env mode st r fields :
  trim (code st) <> [] ->
  ok r = true -> json_ r = inr (JObj fields) ->
  truthy (lookup (js "success") fields) = true ->
  result (fst (handleAction env mode (Responded r) st))
    = lookup (js "data") fields /\
  error (fst (handleAction env mode (Responded r) st)) = None.
Proof.
  intros H Hok Hbody Hs. rewrite (handleAction_accepted env mode _ _ H).
  cbn [fst]. unfold handleAction_resume.
  rewrite (tryBody_success r fields Hok Hbody Hs). split; reflexivity.
Qed.

Lemma success_data_is_stored_unvalidated_witness :
  let r := {| status := 200; json_ := inr (successBody "fix" (JObj [])) |} in
  result (fst (handleAction None Fix (Responded r) typed)) = Json (JObj []) /\
  error (fst (handleAction None Fix (Responded r) typed)) = None.
Proof.
  cbv zeta.
  apply (success_data_is_stored_unvalidated None Fix typed
           {| status := 200; json_ := inr (successBody "fix" (JObj [])) |}
           [(js "success", JBool true); (js "mode", JStr (js "fix"));
            (js "data", JObj [])]).
  - vm_compute; discriminate.
  - reflexivity.
  - reflexivity.
  - reflexivity.
Defined.

(** C5: when the trimmed code is empty, [handleAction] sends no request,
    sets [error] to "Please enter some code" and changes nothing else; in
    particular [loading] and [loadingMode] keep their values. *)
Theorem blank_code_is_rejected env mode o st :
  trim (code st) = [] ->
  snd (handleAction env mode o st) = [] /\
  snd (handleAction_begin env mode st) = None /\
  fst (handleAction env mode o st) = setError (Some validationMessage) st /\
  error (fst (handleAction env mode o st)) = Some (js "Please enter some code") /\
  loading (fst (handleAction env mode o st)) = loading st /\
  loadingMode (fst (handleAction env mode o st)) = loadingMode st.
Proof.
  intros H. unfold handleAction. rewrite (begin_rejected env mode _ H).
  repeat split; reflexivity.
Qed.

Lemma blank_code_is_rejected_witness :
  let st := setCode [32; 9; 10; 160]%N initial in
  let o := answers (successBody "review" reviewData) in
  trim (code st) = [] /\
  snd (handleAction None Review o st) = [] /\
  error (fst (handleAction None Review o st)) = Some (js "Please enter some code") /\
  loading (fst (handleAction None Review o st)) = false.
Proof.
  cbv zeta.
  assert (H : trim (code (setCode [32; 9; 10; 160]%N initial)) = [])
    by reflexivity.
  destruct (blank_code_is_rejected None Review
              (answers (successBody "review" reviewData)) _ H)
    as (A & _ & _ & B & C & _).
  split; [exact H | split; [exact A | split; [exact B | exact C]]].
Defined.

(** C6: a run with non-empty trimmed code sends one request and,
    however the awaited call ends ([fetch] rejecting, an unparseable
    body, any status, any parsed body), it ends with [loading] false and
    [loadingMode] null. *)
Theorem accepted_run_always_finalizes env mode o st :
  trim (code st) <> [] ->
  loading (fst (handleAction env mode o st)) = false /\
  loadingMode (fst (handleAction env mode o st)) = None /\
  length (snd (handleAction env mode o st)) = 1.
Proof.
  intros H. rewrite (handleAction_accepted env mode _ _ H). cbn [fst snd].
  destruct (resume_finalizes o (awaiting mode st)) as [A B].
  repeat split; assumption.
Qed.

Lemma accepted_run_always_finalizes_witness :
  trim (code typed) <> [] /\
  loading (fst (handleAction None Explain
                  (FetchRejected (js "Failed to fetch")) typed)) = false /\
  loadingMode (fst (handleAction None Explain
                      (FetchRejected (js "Failed to fetch")) typed)) = None.
Proof.
  assert (H : trim (code typed) <> []) by (vm_compute; discriminate).
  destruct (accepted_run_always_finalizes None Explain
              (FetchRejected (js "Failed to fetch")) typed H) as (A & B & _).
  split; [exact H | split; [exact A | exact B]].
Defined.

End OrchestratorSpec.


(** ** Visual encoder *)

Module EncoderSpec.


Ltac to_includes :=
  repeat match goal with
         | H : contains _ _ |- _ => apply includes_iff in H
         | H : ~ contains _ _ |- _ => apply includes_false_iff in H
         | H : _ \/ _ |- _ => destruct H
         end.

(** The guard [!complexity] is subsumed by the searches: nothing is found
    in the empty text. *)
Lemma getComplexityColor_unfold (c : option jsstring) :
  getComplexityColor c =
    let comp := lowered c in
    if includes (js "o(1)") comp then js "#4caf50" else
    if includes (js "o(log n)") comp || includes (js "o(n)") comp
    then js "#8bc34a" else
    if includes (js "o(n log n)") comp then js "#ffc107" else
    if includes o_n_squared comp || includes (js "o(n^2)") comp
    then js "#ff9800" else
    if includes (js "o(2^n)") comp || includes (js "o(n!)") comp
    then js "#f44336" else
    js "#666".
Proof.
  destruct c as [[|u s]|]; reflexivity.
Qed.

Lemma getComplexityWidth_unfold (c : option jsstring) :
  getComplexityWidth c =
    let comp := lowered c in
    if includes (js "o(1)") comp then js "10%" else
    if includes (js "o(log n)") comp then js "20%" else
    if includes (js "o(n)") comp then js "30%" else
    if includes (js "o(n log n)") comp then js "50%" else
    if includes o_n_squared comp || includes (js "o(n^2)") comp
    then js "70%" else
    if includes (js "o(2^n)") comp || includes (js "o(n!)") comp
    then js "90%" else
    js "50%".
Proof.
  destruct c as [[|u s]|]; reflexivity.
Qed.

Lemma not_recognized_includes (comp : jsstring) :
  ~ recognized comp ->
  includes (js "o(1)") comp = false /\ includes (js "o(log n)") comp = false /\
  includes (js "o(n)") comp = false /\ includes (js "o(n log n)") comp = false /\
  includes o_n_squared comp = false /\ includes (js "o(n^2)") comp = false /\
  includes (js "o(2^n)") comp = false /\ includes (js "o(n!)") comp = false.
Proof.
  unfold recognized. intros H.
  repeat split; apply includes_false_iff; intros C; apply H; tauto.
Qed.

(** C7, refuted as stated: "O(n) time" is not the text "o(n)" once
    lower-cased, and has neither "o(1)" nor "o(log n)" inside, yet it is
    coloured light green: the rule for "o(n)" is a substring search like
    the others. *)
Lemma longer_text_with_o_n_counterexample :
  toLowerCase (js "O(n) time") <> js "o(n)" /\
  includes (js "o(1)") (toLowerCase (js "O(n) time")) = false /\
  includes (js "o(log n)") (toLowerCase (js "O(n) time")) = false /\
  getComplexityColor (Some (js "O(n) time")) = js "#8bc34a" /\
  getComplexityColor (Some (js "O(n) time")) <> js "#666".
Proof.
  vm_compute. repeat split; discriminate.
Qed.

(** C7, as amended: [getComplexityColor] is defined on every string and
    on null and always answers with one of six colours.  The lower-cased
    text is searched for the patterns in a fixed order and the first
    pattern found decides: "o(1)" gives green; "o(log n)" or "o(n)"
    anywhere inside gives light green; then "o(n log n)" gives yellow;
    "o(n²)" or "o(n^2)" orange; "o(2^n)" or "o(n!)" red; a text with none
    of them, the empty string and null give gray. *)
Theorem getComplexityColor_first_pattern_found (c : option jsstring) :
  In (getComplexityColor c) palette /\
  (contains (js "o(1)") (lowered c) -> getComplexityColor c = js "#4caf50") /\
  (~ contains (js "o(1)") (lowered c) ->
   contains (js "o(log n)") (lowered c) \/ contains (js "o(n)") (lowered c) ->
   getComplexityColor c = js "#8bc34a") /\
  (~ contains (js "o(1)") (lowered c) ->
   ~ contains (js "o(log n)") (lowered c) -> ~ contains (js "o(n)") (lowered c) ->
   contains (js "o(n log n)") (lowered c) ->
   getComplexityColor c = js "#ffc107") /\
  (~ contains (js "o(1)") (lowered c) ->
   ~ contains (js "o(log n)") (lowered c) -> ~ contains (js "o(n)") (lowered c) ->
   ~ contains (js "o(n log n)") (lowered c) ->
   contains o_n_squared (lowered c) \/ contains (js "o(n^2)") (lowered c) ->
   getComplexityColor c = js "#ff9800") /\
  (~ contains (js "o(1)") (lowered c) ->
   ~ contains (js "o(log n)") (lowered c) -> ~ contains (js "o(n)") (lowered c) ->
   ~ contains (js "o(n log n)") (lowered c) ->
   ~ contains o_n_squared (lowered c) -> ~ contains (js "o(n^2)") (lowered c) ->
   contains (js "o(2^n)") (lowered c) \/ contains (js "o(n!)") (lowered c) ->
   getComplexityColor c = js "#f44336") /\
  (~ recognized (lowered c) -> getComplexityColor c = js "#666") /\
  (c = None \/ c = Some [] -> getComplexityColor c = js "#666").
Proof.
  rewrite getComplexityColor_unfold. cbv zeta.
  split; [|repeat split].
  - unfold palette.
    repeat match goal with
           | |- context [if ?b then _ else _] => destruct b
           end; simpl; tauto.
  - intros. to_includes.
    repeat match goal with H : includes _ _ = _ |- _ => rewrite H; clear H end.
    reflexivity.
  - intros. to_includes;
    repeat match goal with H : includes _ _ = _ |- _ => rewrite H; clear H end;
    rewrite ?orb_true_r; reflexivity.
  - intros. to_includes.
    repeat match goal with H : includes _ _ = _ |- _ => rewrite H; clear H end.
    reflexivity.
  - intros. to_includes;
    repeat match goal with H : includes _ _ = _ |- _ => rewrite H; clear H end;
    rewrite ?orb_true_r; reflexivity.
  - intros. to_includes;
    repeat match goal with H : includes _ _ = _ |- _ => rewrite H; clear H end;
    rewrite ?orb_true_r; reflexivity.
  - intros H. apply not_recognized_includes in H.
    destruct H as (H1 & H2 & H3 & H4 & H5 & H6 & H7 & H8).
    now rewrite H1, H2, H3, H4, H5, H6, H7, H8.
  - intros [-> | ->]; reflexivity.
Qed.

Lemma getComplexityColor_first_pattern_found_witness :
  ~ contains (js "o(1)") (lowered (Some (js "O(n) time"))) /\
  contains (js "o(n)") (lowered (Some (js "O(n) time"))) /\
  getComplexityColor (Some (js "O(n) time")) = js "#8bc34a".
Proof.
  assert (A : ~ contains (js "o(1)") (lowered (Some (js "O(n) time"))))
    by (apply includes_false_iff; reflexivity).
  assert (B : contains (js "o(n)") (lowered (Some (js "O(n) time"))))
    by (apply includes_iff; reflexivity).
  split; [exact A | split; [exact B |]].
  exact (proj1 (proj2 (proj2
           (getComplexityColor_first_pattern_found (Some (js "O(n) time")))))
           A (or_intror B)).
Defined.

Lemma firstFound_width (c : option jsstring) (k : nat) :
  firstFound k (lowered c) -> getComplexityWidth c = nth k widthTable [].
Proof.
  rewrite getComplexityWidth_unfold. cbv zeta.
  destruct k as [|[|[|[|[|[|k]]]]]]; cbn [firstFound nth widthTable];
    intros H; try contradiction;
    repeat match goal with H : _ /\ _ |- _ => destruct H end;
    to_includes;
    repeat match goal with H : includes _ _ = _ |- _ => rewrite H; clear H end;
    rewrite ?orb_true_r; reflexivity.
Qed.

Lemma firstFound_rank (comp : jsstring) (k : nat) :
  firstFound k comp -> (k < 6)%nat.
Proof.
  destruct k as [|[|[|[|[|[|k]]]]]]; cbn [firstFound]; intros H;
    try contradiction; lia.
Qed.

Lemma widthTable_sorted (i j : nat) :
  (i <= j)%nat -> (j < 6)%nat ->
  (percent (nth i widthTable []) <= percent (nth j widthTable []))%N.
Proof.
  intros Hij Hj.
  do 6 (destruct i as [|i]; [
    do 6 (destruct j as [|j]; [first [ vm_compute; discriminate | lia ] |]);
    lia |]).
  lia.
Qed.

(** C8: [getComplexityWidth] looks for the patterns in the lower-cased
    text in a fixed order and the first one found decides, for every
    text: "o(1)" gives 10%, "o(log n)" 20%, "o(n)" 30%, "o(n log n)" 50%,
    "o(n²)" or "o(n^2)" 70%, "o(2^n)" or "o(n!)" 90%, and a text with
    none of them, the empty string and null give 50%.  Along the classes
    so found, in the order O(1), O(log n), O(n), O(n log n), O(n²),
    O(2^n), the width never decreases; on the names of the classes the
    widths are those of the table. *)
Theorem getComplexityWidth_table_is_monotone :
  (forall c,
     (contains (js "o(1)") (lowered c) -> getComplexityWidth c = js "10%") /\
     (~ contains (js "o(1)") (lowered c) ->
      contains (js "o(log n)") (lowered c) ->
      getComplexityWidth c = js "20%") /\
     (~ contains (js "o(1)") (lowered c) ->
      ~ contains (js "o(log n)") (lowered c) ->
      contains (js "o(n)") (lowered c) ->
      getComplexityWidth c = js "30%") /\
     (~ contains (js "o(1)") (lowered c) ->
      ~ contains (js "o(log n)") (lowered c) ->
      ~ contains (js "o(n)") (lowered c) ->
      contains (js "o(n log n)") (lowered c) ->
      getComplexityWidth c = js "50%") /\
     (~ contains (js "o(1)") (lowered c) ->
      ~ contains (js "o(log n)") (lowered c) ->
      ~ contains (js "o(n)") (lowered c) ->
      ~ contains (js "o(n log n)") (lowered c) ->
      contains o_n_squared (lowered c) \/ contains (js "o(n^2)") (lowered c) ->
      getComplexityWidth c = js "70%") /\
     (~ contains (js "o(1)") (lowered c) ->
      ~ contains (js "o(log n)") (lowered c) ->
      ~ contains (js "o(n)") (lowered c) ->
      ~ contains (js "o(n log n)") (lowered c) ->
      ~ contains o_n_squared (lowered c) ->
      ~ contains (js "o(n^2)") (lowered c) ->
      contains (js "o(2^n)") (lowered c) \/ contains (js "o(n!)") (lowered c) ->
      getComplexityWidth c = js "90%") /\
     (~ recognized (lowered c) -> getComplexityWidth c = js "50%")) /\
  (forall c1 c2 i j,
     firstFound i (lowered c1) -> firstFound j (lowered c2) ->
     (i <= j)%nat ->
     (percent (getComplexityWidth c1) <= percent (getComplexityWidth c2))%N) /\
  map (fun c => getComplexityWidth (Some c))
      [O_1; O_log_n; O_n; O_n_log_n; O_n_squared; O_n_caret_2; O_2_n;
       O_n_factorial]
  = [js "10%"; js "20%"; js "30%"; js "50%"; js "70%"; js "70%"; js "90%";
     js "90%"] /\
  getComplexityWidth None = js "50%" /\
  getComplexityWidth (Some []) = js "50%" /\
  (forall s, ~ recognized (toLowerCase s) ->
             getComplexityWidth (Some s) = js "50%") /\
  map (fun c => percent (getComplexityWidth (Some c))) orderedClasses
  = [10; 20; 30; 50; 70; 90]%N /\
  (forall i j, (i <= j < length orderedClasses)%nat ->
     (percent (getComplexityWidth (Some (nth i orderedClasses [])))
      <= percent (getComplexityWidth (Some (nth j orderedClasses []))))%N).
Proof.
  split.
  { intros c. split; [|split; [|split; [|split; [|split; [|split]]]]].
    - intros A. exact (firstFound_width c 0 A).
    - intros A B. exact (firstFound_width c 1 (conj A B)).
    - intros A B C. exact (firstFound_width c 2 (conj A (conj B C))).
    - intros A B C D.
      exact (firstFound_width c 3 (conj A (conj B (conj C D)))).
    - intros A B C D E.
      exact (firstFound_width c 4 (conj A (conj B (conj C (conj D E))))).
    - intros A B C D E F G.
      exact (firstFound_width c 5
               (conj A (conj B (conj C (conj D (conj E (conj F G))))))).
    - intros H. rewrite getComplexityWidth_unfold. cbv zeta.
      apply not_recognized_includes in H.
      destruct H as (H1 & H2 & H3 & H4 & H5 & H6 & H7 & H8).
      now rewrite H1, H2, H3, H4, H5, H6, H7, H8. }
  split.
  { intros c1 c2 i j Hi Hj Hij.
    rewrite (firstFound_width c1 i Hi), (firstFound_width c2 j Hj).
    apply widthTable_sorted; [exact Hij | exact (firstFound_rank _ j Hj)]. }
  split; [reflexivity|]. split; [reflexivity|]. split; [reflexivity|].
  split; [|split; [reflexivity|]].
  - intros s H. rewrite getComplexityWidth_unfold. cbv zeta.
    apply not_recognized_includes in H. unfold lowered.
    destruct H as (H1 & H2 & H3 & H4 & H5 & H6 & H7 & H8).
    now rewrite H1, H2, H3, H4, H5, H6, H7, H8.
  - intros i j [Hij Hj]. cbn [length orderedClasses] in Hj.
    assert (Hi : (i < 6)%nat) by lia.
    do 6 (destruct i as [|i]; [
      do 6 (destruct j as [|j]; [first [ vm_compute; discriminate | lia ] |]);
      lia |]).
    lia.
Qed.

Lemma getComplexityWidth_table_is_monotone_witness :
  ~ contains (js "o(1)") (lowered (Some (js "O(n) time"))) /\
  ~ contains (js "o(log n)") (lowered (Some (js "O(n) time"))) /\
  contains (js "o(n)") (lowered (Some (js "O(n) time"))) /\
  getComplexityWidth (Some (js "O(n) time")) = js "30%" /\
  firstFound 0 (lowered (Some (js "O(1) amortized"))) /\
  firstFound 2 (lowered (Some (js "O(n) time"))) /\
  (percent (getComplexityWidth (Some (js "O(1) amortized")))
   <= percent (getComplexityWidth (Some (js "O(n) time"))))%N.
Proof.
  assert (A : ~ contains (js "o(1)") (lowered (Some (js "O(n) time"))))
    by (apply includes_false_iff; reflexivity).
  assert (B : ~ contains (js "o(log n)") (lowered (Some (js "O(n) time"))))
    by (apply includes_false_iff; reflexivity).
  assert (C : contains (js "o(n)") (lowered (Some (js "O(n) time"))))
    by (apply includes_iff; reflexivity).
  assert (D : firstFound 0 (lowered (Some (js "O(1) amortized"))))
    by (apply includes_iff; reflexivity).
  assert (E : firstFound 2 (lowered (Some (js "O(n) time"))))
    by (exact (conj A (conj B C))).
  split; [exact A | split; [exact B | split; [exact C | split]]].
  - exact (proj1 (proj2 (proj2
             (proj1 getComplexityWidth_table_is_monotone
                (Some (js "O(n) time"))))) A B C).
  - split; [exact D | split; [exact E |]].
    exact (proj1 (proj2 getComplexityWidth_table_is_monotone)
             (Some (js "O(1) amortized")) (Some (js "O(n) time"))
             0%nat 2%nat D E ltac:(lia)).
Defined.

End EncoderSpec.


(** ** Text formatter *)

Module FormatterFacts.

Local Open Scope N_scope.


(** *** What a match is made of *)

Lemma lazyToBoldClose_Some s cap rest :
  lazyToBoldClose s = Some (cap, rest) ->
  s = cap ++ js "**" ++ rest /\ singleLine cap.
Proof.
  revert cap rest. induction s as [|c t IH]; intros cap rest.
  - discriminate.
  - cbn [lazyToBoldClose].
    destruct (startsWith [asterisk; asterisk] (c :: t)) eqn:E.
    + intros H. injection H as <- <-.
      apply startsWith_iff in E. destruct E as [after E].
      cbn [app] in E. injection E as -> ->.
      split; [reflexivity | constructor].
    + destruct (isLineTerminator c) eqn:L; [discriminate|].
      destruct (lazyToBoldClose t) as [[cap' rest']|]; [|discriminate].
      intros H. injection H as <- <-.
      destruct (IH cap' rest' eq_refl) as [-> S].
      split; [reflexivity | now constructor].
Qed.

Lemma matchBold_Some s cap rest :
  matchBold s = Some (cap, rest) ->
  s = js "**" ++ cap ++ js "**" ++ rest /\ singleLine cap.
Proof.
  unfold matchBold. destruct (startsWith [asterisk; asterisk] s) eqn:E;
    [|discriminate].
  apply startsWith_iff in E. destruct E as [after ->].
  intros H. apply lazyToBoldClose_Some in H. destruct H as [H S].
  cbn [skipn app] in H. rewrite H. split; [reflexivity | exact S].
Qed.

Lemma loneAsterisk_Some prev s t :
  loneAsterisk prev s = Some t -> s = asterisk :: t.
Proof.
  destruct s as [|c s]; [discriminate|]. cbn [loneAsterisk].
  destruct ((c =? asterisk) && negb (isAsterisk prev)
            && negb (isAsterisk (hd_error s))) eqn:E; [|discriminate].
  rewrite !andb_true_iff, N.eqb_eq in E. destruct E as [[-> _] _].
  congruence.
Qed.

Lemma lazyToItalicClose_Some prev s cap rest :
  lazyToItalicClose prev s = Some (cap, rest) ->
  s = cap ++ js "*" ++ rest /\ singleLine cap.
Proof.
  revert prev cap rest. induction s as [|c t IH]; intros prev cap rest.
  - discriminate.
  - cbn [lazyToItalicClose].
    destruct (loneAsterisk (Some prev) (c :: t)) as [after|] eqn:E.
    + intros H. injection H as <- <-.
      apply loneAsterisk_Some in E. rewrite E.
      split; [reflexivity | constructor].
    + destruct (isLineTerminator c) eqn:L; [discriminate|].
      destruct (lazyToItalicClose c t) as [[cap' rest']|] eqn:R; [|discriminate].
      intros H. injection H as <- <-.
      destruct (IH c cap' rest' R) as [-> S].
      split; [reflexivity | now constructor].
Qed.

Lemma matchItalic_Some prev s cap rest :
  matchItalic prev s = Some (cap, rest) ->
  s = js "*" ++ cap ++ js "*" ++ rest /\ singleLine cap.
Proof.
  unfold matchItalic. destruct (loneAsterisk prev s) as [t|] eqn:E;
    [|discriminate].
  apply loneAsterisk_Some in E. subst s.
  intros H. apply lazyToItalicClose_Some in H. destruct H as [-> S].
  split; [reflexivity | exact S].
Qed.

Lemma toBacktick_Some s cap rest :
  toBacktick s = Some (cap, rest) ->
  s = cap ++ [backtick] ++ rest /\ free backtick cap.
Proof.
  revert cap rest. induction s as [|c t IH]; intros cap rest.
  - discriminate.
  - cbn [toBacktick]. destruct (c =? backtick) eqn:E.
    + intros H. injection H as <- <-. apply N.eqb_eq in E. subst c.
      split; [reflexivity | constructor].
    + destruct (toBacktick t) as [[cap' rest']|] eqn:R; [|discriminate].
      intros H. injection H as <- <-.
      destruct (IH cap' rest' eq_refl) as [-> F].
      apply N.eqb_neq in E.
      split; [reflexivity | now constructor].
Qed.

Lemma matchCode_Some s cap rest :
  matchCode s = Some (cap, rest) ->
  s = [backtick] ++ cap ++ [backtick] ++ rest /\ cap <> [] /\
  free backtick cap.
Proof.
  destruct s as [|c t]; [discriminate|]. cbn [matchCode].
  destruct (c =? backtick) eqn:E; [|discriminate].
  apply N.eqb_eq in E. subst c.
  destruct (toBacktick t) as [[cap' rest']|] eqn:R; [|discriminate].
  destruct (nonEmpty cap') eqn:NE; [|discriminate].
  intros H. injection H as <- <-.
  apply toBacktick_Some in R. destruct R as [-> F].
  split; [reflexivity | split; [now apply nonEmpty_true_iff | exact F]].
Qed.

(** *** The fuel given by the callers is enough *)

Lemma matchBold_shorter s cap rest :
  matchBold s = Some (cap, rest) -> (length rest < length s)%nat.
Proof.
  intros H. apply matchBold_Some in H. destruct H as [-> _].
  rewrite !length_app. cbn [length js map]. simpl. lia.
Qed.

Lemma matchItalic_shorter prev s cap rest :
  matchItalic prev s = Some (cap, rest) -> (length rest < length s)%nat.
Proof.
  intros H. apply matchItalic_Some in H. destruct H as [-> _].
  rewrite !length_app. simpl. lia.
Qed.

Lemma matchCode_shorter s cap rest :
  matchCode s = Some (cap, rest) -> (length rest < length s)%nat.
Proof.
  intros H. apply matchCode_Some in H. destruct H as (-> & _ & _).
  rewrite !length_app. simpl. lia.
Qed.

Lemma replaceBold_from_fuel n m s :
  (length s <= n)%nat -> (length s <= m)%nat ->
  replaceBold_from n s = replaceBold_from m s.
Proof.
  revert m s. induction n as [|n IH]; intros m s Hn Hm.
  - destruct s; [|simpl in Hn; lia]. destruct m; reflexivity.
  - destruct m as [|m]; [destruct s; [reflexivity | simpl in Hm; lia]|].
    destruct s as [|c t]; [reflexivity|]. cbn [replaceBold_from].
    destruct (matchBold (c :: t)) as [[cap rest]|] eqn:E.
    + apply matchBold_shorter in E. cbn [length] in *.
      rewrite (IH m rest) by lia. reflexivity.
    + cbn [length] in *. rewrite (IH m t) by lia. reflexivity.
Qed.

Lemma replaceItalic_from_fuel n m prev s :
  (length s <= n)%nat -> (length s <= m)%nat ->
  replaceItalic_from n prev s = replaceItalic_from m prev s.
Proof.
  revert m prev s. induction n as [|n IH]; intros m prev s Hn Hm.
  - destruct s; [|simpl in Hn; lia]. destruct m; reflexivity.
  - destruct m as [|m]; [destruct s; [reflexivity | simpl in Hm; lia]|].
    destruct s as [|c t]; [reflexivity|]. cbn [replaceItalic_from].
    destruct (matchItalic prev (c :: t)) as [[cap rest]|] eqn:E.
    + apply matchItalic_shorter in E. cbn [length] in *.
      rewrite (IH m _ rest) by lia. reflexivity.
    + cbn [length] in *. rewrite (IH m _ t) by lia. reflexivity.
Qed.

Lemma replaceCode_from_fuel n m s :
  (length s <= n)%nat -> (length s <= m)%nat ->
  replaceCode_from n s = replaceCode_from m s.
Proof.
  revert m s. induction n as [|n IH]; intros m s Hn Hm.
  - destruct s; [|simpl in Hn; lia]. destruct m; reflexivity.
  - destruct m as [|m]; [destruct s; [reflexivity | simpl in Hm; lia]|].
    destruct s as [|c t]; [reflexivity|]. cbn [replaceCode_from].
    destruct (matchCode (c :: t)) as [[cap rest]|] eqn:E.
    + apply matchCode_shorter in E. cbn [length] in *.
      rewrite (IH m rest) by lia. reflexivity.
    + cbn [length] in *. rewrite (IH m t) by lia. reflexivity.
Qed.

(** The replacements as equations on the subject, free of fuel. *)
Lemma replaceBold_cons c t :
  replaceBold (c :: t) =
    match matchBold (c :: t) with
    | Some (cap, rest) =>
        js "<strong>" ++ cap ++ js "</strong>" ++ replaceBold rest
    | None => c :: replaceBold t
    end.
Proof.
  unfold replaceBold. cbn [length replaceBold_from].
  destruct (matchBold (c :: t)) as [[cap rest]|] eqn:E; [|reflexivity].
  apply matchBold_shorter in E. cbn [length] in E.
  now rewrite (replaceBold_from_fuel (length t) (length rest) rest) by lia.
Qed.

Lemma replaceItalic_from_cons prev c t :
  replaceItalic_from (length (c :: t)) prev (c :: t) =
    match matchItalic prev (c :: t) with
    | Some (cap, rest) =>
        js "<em>" ++ cap ++ js "</em>"
        ++ replaceItalic_from (length rest) (Some asterisk) rest
    | None => c :: replaceItalic_from (length t) (Some c) t
    end.
Proof.
  cbn [length replaceItalic_from].
  destruct (matchItalic prev (c :: t)) as [[cap rest]|] eqn:E; [|reflexivity].
  apply matchItalic_shorter in E. cbn [length] in E.
  now rewrite (replaceItalic_from_fuel (length t) (length rest) _ rest) by lia.
Qed.

Lemma replaceCode_cons c t :
  replaceCode (c :: t) =
    match matchCode (c :: t) with
    | Some (cap, rest) =>
        codeOpen ++ cap ++ js "</code>" ++ replaceCode rest
    | None => c :: replaceCode t
    end.
Proof.
  unfold replaceCode. cbn [length replaceCode_from].
  destruct (matchCode (c :: t)) as [[cap rest]|] eqn:E; [|reflexivity].
  apply matchCode_shorter in E. cbn [length] in E.
  now rewrite (replaceCode_from_fuel (length t) (length rest) rest) by lia.
Qed.

Lemma dropLF_length s : (length (dropLF s) <= length s)%nat.
Proof.
  induction s as [|c t IH]; [reflexivity|]. cbn [dropLF].
  destruct (c =? LF); cbn [length]; lia.
Qed.

Lemma matchBlankLine_shorter s rest :
  matchBlankLine s = Some rest -> (length rest < length s)%nat.
Proof.
  unfold matchBlankLine. destruct (startsWith [LF; LF] s) eqn:E; [|discriminate].
  apply startsWith_iff in E. destruct E as [after ->].
  intros H. injection H as <-.
  change (dropLF ([LF; LF] ++ after)) with (dropLF after).
  pose proof (dropLF_length after). cbn [length app]. lia.
Qed.

Lemma split_from_fuel n m s :
  (length s <= n)%nat -> (length s <= m)%nat ->
  split_from n s = split_from m s.
Proof.
  revert m s. induction n as [|n IH]; intros m s Hn Hm.
  - destruct s; [|simpl in Hn; lia]. destruct m; reflexivity.
  - destruct m as [|m]; [destruct s; [reflexivity | simpl in Hm; lia]|].
    destruct s as [|c t]; [reflexivity|]. cbn [split_from].
    destruct (matchBlankLine (c :: t)) as [rest|] eqn:E.
    + apply matchBlankLine_shorter in E. cbn [length] in *.
      rewrite (IH m rest) by lia. reflexivity.
    + cbn [length] in *. rewrite (IH m t) by lia. reflexivity.
Qed.

(** [split] always yields at least one piece. *)
Lemma split_from_pieces n s : split_from n s <> [].
Proof.
  revert s. induction n as [|n IH]; intros s; [discriminate|].
  destruct s as [|c t]; [discriminate|]. cbn [split_from].
  destruct (matchBlankLine (c :: t)); [discriminate|].
  specialize (IH t). now destruct (split_from n t).
Qed.

Lemma splitParagraphs_cons c t :
  splitParagraphs (c :: t) =
    match matchBlankLine (c :: t) with
    | Some rest => [] :: splitParagraphs rest
    | None =>
        match splitParagraphs t with
        | piece :: pieces => (c :: piece) :: pieces
        | [] => [[c]]
        end
    end.
Proof.
  unfold splitParagraphs. cbn [length split_from].
  destruct (matchBlankLine (c :: t)) as [rest|] eqn:E; [|reflexivity].
  apply matchBlankLine_shorter in E. cbn [length] in E.
  now rewrite (split_from_fuel (length t) (length rest) rest) by lia.
Qed.

End FormatterFacts.
Import FormatterFacts.

Module FormatterSpec.

Local Open Scope N_scope.

(** *** Delimiters with a line feed between them *)

Lemma free_app d u v : free d u -> free d v -> free d (u ++ v).
Proof. intros U V. apply Forall_app. now split. Qed.

Lemma free_line d u v :
  LF <> d -> free d u -> free d v -> free d (u ++ [LF] ++ v).
Proof.
  intros N U V. apply free_app; [exact U|]. apply free_app; [|exact V].
  constructor; [exact N | constructor].
Qed.



Lemma matchBold_free c t : c <> asterisk -> matchBold (c :: t) = None.
Proof.
  intros H. unfold matchBold. cbn [startsWith].
  now rewrite (proj2 (N.eqb_neq asterisk c)) by congruence.
Qed.

Lemma replaceBold_free_prefix w rest :
  free asterisk w -> replaceBold (w ++ rest) = w ++ replaceBold rest.
Proof.
  induction 1 as [|c w Hc _ IH]; [reflexivity|].
  cbn [app]. rewrite replaceBold_cons, (matchBold_free c _ Hc), IH.
  reflexivity.
Qed.



Lemma matchItalic_free prev c t : c <> asterisk -> matchItalic prev (c :: t) = None.
Proof.
  intros H. unfold matchItalic, loneAsterisk.
  now rewrite (proj2 (N.eqb_neq c asterisk)) by congruence.
Qed.




Lemma toBacktick_free w rest :
  free backtick w -> toBacktick (w ++ backtick :: rest) = Some (w, rest).
Proof.
  induction 1 as [|c w Hc _ IH].
  - cbn [app toBacktick]. now rewrite N.eqb_refl.
  - cbn [app toBacktick].
    rewrite (proj2 (N.eqb_neq c backtick)) by congruence.
    now rewrite IH.
Qed.


(** *** Examples, and spans against line feeds *)


(** C9: the text with a bold, an italic and a code span becomes one
    paragraph fragment holding the three spans in that order; a text
    with a blank line between [p1] and [p2] becomes two paragraph
    fragments; the empty string and null become the empty string. *)
Theorem formatExplanation_examples :
  paragraphs (js "**a** and *b* and `c`") = [threeSpans] /\
  formatExplanation (Some (js "**a** and *b* and `c`")) = threeSpans /\
  paragraphs (js "p1" ++ [LF; LF] ++ js "p2") = [js "<p>p1</p>"; js "<p>p2</p>"] /\
  formatExplanation (Some (js "p1" ++ [LF; LF] ++ js "p2"))
  = js "<p>p1</p><p>p2</p>" /\
  formatExplanation (Some []) = [] /\
  formatExplanation None = [].
Proof.
  repeat split; vm_compute; reflexivity.
Qed.




End FormatterSpec.


(** * Further properties of the code *)

(** ** Request orchestrator: states, outcomes and messages *)

Module OrchestratorExtra.

(** While a call is suspended, [resultMode] is null as well. *)
Lemma step_pending_mode env a e a' :
  consistent a ->
  (pending a = 1 -> resultMode (session a) = null) ->
  step env a e a' ->
  pending a' = 1 -> resultMode (session a') = null.
Proof.
  intros Inv Q Hstep.
  destruct Hstep as [a text | a lang | a mode st' Hl Hb | a mode st' rq Hl Hb
                    | a | a n o Hp]; cbn [session pending].
  - exact Q.
  - exact Q.
  - destruct (begin_cases env mode (session a)) as [[_ E] | [_ [rq E]]];
      rewrite E in Hb; [|discriminate].
    injection Hb as <-. exact Q.
  - destruct (begin_cases env mode (session a)) as [[_ E] | [_ [rq' E]]];
      rewrite E in Hb; [discriminate|].
    injection Hb as <- _. reflexivity.
  - reflexivity.
  - intros ->. destruct Inv as [(P & _) | (P & _)]; congruence.
Qed.

Lemma reachable_pending_mode env a :
  reachable env a -> pending a = 1 -> resultMode (session a) = null.
Proof.
  induction 1 as [|a e a' Hr IH Hstep]; [discriminate|].
  exact (step_pending_mode env a e a' (reachable_consistent env a Hr) IH Hstep).
Qed.

(** X1: in every reachable state at most one call of [handleAction] is
    suspended; [loading] is true exactly when one is, and exactly when
    [loadingMode] is set; and while it is, [result], [resultMode] and
    [error] are all null. *)
Theorem one_request_in_flight env a :
  reachable env a ->
  pending a <= 1 /\
  (loading (session a) = true <-> pending a = 1) /\
  (loading (session a) = true <-> loadingMode (session a) <> None) /\
  (loading (session a) = true ->
   result (session a) = null /\ resultMode (session a) = null /\
   error (session a) = None).
Proof.
  intros Hr. pose proof (reachable_consistent env a Hr) as Inv.
  pose proof (reachable_pending_mode env a Hr) as Q.
  destruct Inv as [(P & L & M & _) | (P & L & M & R & E)].
  - rewrite P, L, M. repeat split; try lia; try congruence.
  - rewrite P, L. repeat split; auto.
Qed.

Lemma one_request_in_flight_witness :
  let a := run None [TypeCode (js "x=1"); ClickAction Review;
                     ClickAction Fix; TypeCode (js "y")] in
  reachable None a /\ pending a = 1 /\ loading (session a) = true /\
  loadingMode (session a) = Some Review /\ result (session a) = null.
Proof.
  cbv zeta.
  pose proof (run_reachable None [TypeCode (js "x=1"); ClickAction Review;
                                  ClickAction Fix; TypeCode (js "y")]) as Hr.
  destruct (one_request_in_flight None _ Hr) as (_ & A & _ & B).
  split; [exact Hr|]. split; [reflexivity|]. split; [reflexivity|].
  split; [reflexivity|]. exact (proj1 (B eq_refl)).
Defined.

(** X2: a run with non-empty trimmed code ends in one of two ways.
    Either the service answered 2xx with an object whose [success] is
    truthy, and [error] is null; or [error] holds a message and both
    [result] and [resultMode] are null. *)
Theorem accepted_run_outcome env mode o st :
  trim (code st) <> [] ->
  (error (fst (handleAction env mode o st)) = None /\
   exists r fields,
     o = Responded r /\ ok r = true /\ json_ r = inr (JObj fields) /\
     truthy (lookup (js "success") fields) = true)
  \/
  (exists message,
     error (fst (handleAction env mode o st)) = Some message /\
     result (fst (handleAction env mode o st)) = null /\
     resultMode (fst (handleAction env mode o st)) = null).
Proof.
  intros H. rewrite (handleAction_accepted env mode _ _ H). cbn [fst].
  unfold handleAction_resume.
  destruct (tryBody o) as [[d m] | message] eqn:T.
  - left. split; [reflexivity|].
    destruct (tryBody_Return_inv _ _ _ T)
      as (r & fields & -> & Hok & Hbody & Hs & _ & _).
    now exists r, fields.
  - right. exists message. repeat split.
Qed.

Lemma accepted_run_outcome_witness :
  let o := answers (JObj [(js "success", JBool false)]) in
  trim (code typed) <> [] /\
  error (fst (handleAction None Optimize o typed)) = Some (js "Processing failed") /\
  result (fst (handleAction None Optimize o typed)) = null.
Proof.
  cbv zeta.
  assert (H : trim (code typed) <> []) by (vm_compute; discriminate).
  split; [exact H|].
  destruct (accepted_run_outcome None Optimize
              (answers (JObj [(js "success", JBool false)])) typed H)
    as [[E _] | (message & E & R & _)].
  - vm_compute in E. discriminate E.
  - split; [reflexivity | exact R].
Defined.

(** X3: [handleAction] never changes [code] or [language], whether it
    rejects or runs, and what it sends is the state's code as typed (not
    trimmed), its language and the mode, to the review endpoint. *)
Theorem run_keeps_input_and_sends_it env mode o st :
  code (fst (handleAction env mode o st)) = code st /\
  language (fst (handleAction env mode o st)) = language st /\
  (forall request, In request (snd (handleAction env mode o st)) ->
     body_code request = code st /\ body_language request = language st /\
     body_mode request = mode /\
     url request = getApiUrl env (js "/api/review")).
Proof.
  destruct (trim (code st)) as [|c t] eqn:E.
  - unfold handleAction. rewrite (begin_rejected env mode st E).
    cbn. repeat split; contradiction.
  - assert (H : trim (code st) <> []) by (rewrite E; discriminate).
    rewrite (handleAction_accepted env mode o st H). cbn [fst snd].
    unfold handleAction_resume.
    split; [|split].
    + destruct (tryBody o) as [[d m] | message]; reflexivity.
    + destruct (tryBody o) as [[d m] | message]; reflexivity.
    + intros request [<- | []]. repeat split.
Qed.

(** X4: a message sent by the service is shown as it is.  When the body
    is an object whose [error] is a non-empty string, and either the
    status is not 2xx or [success] is not truthy, [error] becomes that
    string; and when [fetch] itself rejects, [error] becomes the
    rejection's message. *)
Theorem service_message_is_shown env mode st :
  trim (code st) <> [] ->
  (forall r fields s,
     json_ r = inr (JObj fields) ->
     lookup (js "error") fields = Json (JStr s) -> s <> [] ->
     ok r = false \/ truthy (lookup (js "success") fields) = false ->
     error (fst (handleAction env mode (Responded r) st)) = Some s) /\
  (forall message,
     error (fst (handleAction env mode (FetchRejected message) st))
     = Some message).
Proof.
  intros H. split.
  - intros r fields s Hbody He Hs Hcase.
    rewrite (handleAction_accepted env mode _ _ H). cbn [fst].
    unfold handleAction_resume, tryBody. rewrite Hbody.
    assert (M : forall fb, messageOr (lookup (js "error") fields) fb = s).
    { intros fb. rewrite He. unfold messageOr. cbn [truthy ToString].
      apply nonEmpty_true_iff in Hs. now rewrite Hs. }
    destruct (ok r) eqn:Hok; cbn [negb getProp bind].
    + destruct Hcase as [C | C]; [discriminate|]. rewrite C.
      cbn [bind]. now rewrite M.
    + now rewrite M.
  - intros message. rewrite (handleAction_accepted env mode _ _ H).
    reflexivity.
Qed.

Lemma service_message_is_shown_witness :
  let r := {| status := 429;
              json_ := inr (JObj [(js "error", JStr (js "Rate limited"))]) |} in
  trim (code typed) <> [] /\
  error (fst (handleAction None Review (Responded r) typed))
  = Some (js "Rate limited").
Proof.
  cbv zeta.
  assert (H : trim (code typed) <> []) by (vm_compute; discriminate).
  split; [exact H|].
  apply (proj1 (service_message_is_shown None Review typed H)
           {| status := 429;
              json_ := inr (JObj [(js "error", JStr (js "Rate limited"))]) |}
           [(js "error", JStr (js "Rate limited"))] (js "Rate limited")).
  - reflexivity.
  - reflexivity.
  - discriminate.
  - left. reflexivity.
Defined.

(** X5: the two fallbacks.  For a body that parsed to anything but
    [null] and has no truthy [error], a status outside 2xx gives
    "Failed to process code", and a 2xx status without a truthy
    [success] gives "Processing failed"; a body that is a string, a
    number, a boolean or an array has neither property. *)
Theorem fallback_messages env mode st r body success err :
  trim (code st) <> [] ->
  json_ r = inr body ->
  getProp (Json body) "success" = Return success ->
  getProp (Json body) "error" = Return err ->
  truthy err = false ->
  (ok r = false ->
   error (fst (handleAction env mode (Responded r) st))
   = Some (js "Failed to process code")) /\
  (ok r = true -> truthy success = false ->
   error (fst (handleAction env mode (Responded r) st))
   = Some (js "Processing failed")).
Proof.
  intros H Hbody Gs Ge Te.
  assert (M : forall fb, messageOr err fb = js fb).
  { intros fb. unfold messageOr. destruct err as [|j]; [reflexivity|].
    now rewrite Te. }
  rewrite (handleAction_accepted env mode _ _ H). cbn [fst].
  unfold handleAction_resume, tryBody. rewrite Hbody.
  split.
  - intros Hok. rewrite Hok. cbn [negb]. rewrite Ge. cbn [bind].
    now rewrite M.
  - intros Hok Ts. rewrite Hok. cbn [negb]. rewrite Gs. cbn [bind].
    rewrite Ts, Ge. cbn [bind]. now rewrite M.
Qed.

Lemma fallback_messages_witness :
  let r := {| status := 200; json_ := inr (JArr [JNum 1]) |} in
  trim (code typed) <> [] /\
  error (fst (handleAction None Explain (Responded r) typed))
  = Some (js "Processing failed").
Proof.
  cbv zeta.
  assert (H : trim (code typed) <> []) by (vm_compute; discriminate).
  split; [exact H|].
  apply (proj2 (fallback_messages None Explain typed
                  {| status := 200; json_ := inr (JArr [JNum 1]) |}
                  (JArr [JNum 1]) Undefined Undefined
                  H eq_refl eq_refl eq_refl eq_refl)).
  - reflexivity.
  - reflexivity.
Defined.

(** X6: [handleClear] empties [code], [result], [resultMode] and [error]
    and touches nothing else; clearing twice is clearing once. *)
Theorem clear_resets_and_is_idempotent st :
  handleClear (handleClear st) = handleClear st /\
  code (handleClear st) = [] /\
  result (handleClear st) = null /\ resultMode (handleClear st) = null /\
  error (handleClear st) = None /\
  language (handleClear st) = language st /\
  loading (handleClear st) = loading st /\
  loadingMode (handleClear st) = loadingMode st.
Proof.
  repeat split.
Qed.

(** X7: after Clear the text area is empty, so the next action, whatever
    its mode and whatever was shown before, sends nothing and ends with
    the validation message and no result. *)
Theorem action_after_clear_is_rejected env mode o st :
  snd (handleAction env mode o (handleClear st)) = [] /\
  error (fst (handleAction env mode o (handleClear st)))
  = Some (js "Please enter some code") /\
  result (fst (handleAction env mode o (handleClear st))) = null.
Proof.
  unfold handleAction.
  rewrite (begin_rejected env mode (handleClear st) eq_refl).
  repeat split.
Qed.

End OrchestratorExtra.

(** ** The service URL: [getApiUrl] *)

Module UrlFacts.

Local Open Scope N_scope.

Lemma dropTrailingSlashes_slash s :
  dropTrailingSlashes (s ++ [slash]) = dropTrailingSlashes s.
Proof.
  unfold dropTrailingSlashes. rewrite rev_app_distr. reflexivity.
Qed.

Lemma dropTrailingSlashes_other s c :
  c <> slash -> dropTrailingSlashes (s ++ [c]) = s ++ [c].
Proof.
  intros H. unfold dropTrailingSlashes. rewrite rev_app_distr.
  cbn [rev app]. rewrite (proj2 (N.eqb_neq c 47)) by exact H.
  cbn [rev]. now rewrite rev_involutive.
Qed.

Lemma dropTrailingSlashes_slashes s n :
  dropTrailingSlashes (s ++ repeat slash n) = dropTrailingSlashes s.
Proof.
  induction n as [|n IH]; [now rewrite app_nil_r|].
  cbn [repeat]. rewrite repeat_cons, app_assoc, dropTrailingSlashes_slash.
  exact IH.
Qed.

(** What is dropped is a run of slashes, and what is kept does not end
    with one. *)
Lemma dropTrailingSlashes_spec s :
  (exists n, s = dropTrailingSlashes s ++ repeat slash n) /\
  (forall t, dropTrailingSlashes s <> t ++ [slash]).
Proof.
  induction s as [|c s [[n IH] N]] using rev_ind.
  - split; [now exists 0%nat | intros [|? ?]; discriminate].
  - destruct (N.eq_dec c slash) as [-> | Hc].
    + rewrite dropTrailingSlashes_slash. split; [|exact N].
      exists (S n). cbn [repeat]. rewrite repeat_cons, app_assoc.
      now rewrite <- IH.
    + rewrite (dropTrailingSlashes_other s c Hc). split.
      * exists 0%nat. now rewrite app_nil_r.
      * intros t E. apply app_inj_tail in E. now destruct E.
Qed.

(** X8: slashes at the end of the configured base address do not count:
    adding any number of them gives the same URL, and in the URL the
    base is followed by the path without a slash of its own before it. *)
Theorem trailing_slashes_of_base_are_dropped base n endpoint :
  base <> [] ->
  getApiUrl (Some (base ++ repeat slash n)) endpoint
  = getApiUrl (Some base) endpoint /\
  exists kept path,
    getApiUrl (Some base) endpoint = kept ++ path /\
    (forall t, kept <> t ++ [slash]) /\
    startsWith (js "/") path = true /\
    exists k, base = kept ++ repeat slash k.
Proof.
  intros Hb.
  assert (E1 : API_URL (Some base) = base)
    by (unfold API_URL; now destruct base).
  assert (E2 : API_URL (Some (base ++ repeat slash n)) = base ++ repeat slash n)
    by (unfold API_URL; now destruct base).
  unfold getApiUrl. rewrite E1, E2, dropTrailingSlashes_slashes.
  split; [reflexivity|].
  destruct (dropTrailingSlashes_spec base) as [[k Hk] Hn].
  exists (dropTrailingSlashes base).
  exists (if startsWith (js "/") endpoint then endpoint else js "/" ++ endpoint).
  split; [reflexivity|]. split; [exact Hn|]. split.
  - destruct (startsWith (js "/") endpoint) eqn:S; [exact S | reflexivity].
  - now exists k.
Qed.

Lemma trailing_slashes_of_base_are_dropped_witness :
  js "http://localhost:5000" <> [] /\
  getApiUrl (Some (js "http://localhost:5000" ++ repeat slash 2))
            (js "/api/review")
  = js "http://localhost:5000/api/review".
Proof.
  assert (H : js "http://localhost:5000" <> []) by discriminate.
  split; [exact H|].
  rewrite (proj1 (trailing_slashes_of_base_are_dropped
                    (js "http://localhost:5000") 2 (js "/api/review") H)).
  reflexivity.
Defined.

(** X9: the slash that starts the endpoint is optional: an endpoint
    written without it gives the URL of the endpoint written with it.
    Slashes are only added, never removed: whatever follows the first
    slash of an endpoint is kept, further slashes included. *)
Theorem leading_slash_of_endpoint_is_optional env endpoint :
  getApiUrl env (js "/" ++ endpoint)
  = dropTrailingSlashes (API_URL env) ++ js "/" ++ endpoint /\
  (startsWith (js "/") endpoint = false ->
   getApiUrl env endpoint = getApiUrl env (js "/" ++ endpoint)).
Proof.
  split.
  - reflexivity.
  - intros H. unfold getApiUrl. rewrite H. reflexivity.
Qed.

Lemma leading_slash_of_endpoint_is_optional_witness :
  startsWith (js "/") (js "api/review") = false /\
  getApiUrl None (js "api/review") = getApiUrl None (js "/api/review").
Proof.
  split; [reflexivity|].
  exact (proj2 (leading_slash_of_endpoint_is_optional None (js "api/review"))
           eq_refl).
Defined.

End UrlFacts.

(** ** Badges and the complexity bar *)

Module EncoderExtra.

Lemma eqb_eq (a b : jsstring) : JsString.eqb a b = true <-> a = b.
Proof.
  unfold JsString.eqb. destruct (list_eq_dec N.eq_dec a b); split;
    congruence.
Qed.

Lemma eqb_neq (a b : jsstring) : JsString.eqb a b = false <-> a <> b.
Proof.
  unfold JsString.eqb. destruct (list_eq_dec N.eq_dec a b); split;
    congruence.
Qed.

(** Closes an equivalence between two equations that are both refuted,
    by evaluation or by a hypothesis, or both plain. *)
Ltac settle :=
  split; intros X;
  first [ reflexivity
        | congruence
        | exfalso; vm_compute in X; discriminate X
        | exfalso; subst; vm_compute in X; discriminate X ].

(** X10: [getSeverityColor] knows four names and compares the whole
    lower-cased text with them: each colour is given for its name and
    for no other text, and gray is what every other text, and a missing
    severity, gets. *)
Theorem getSeverityColor_exact_names severity :
  (getSeverityColor severity = js "#f44336"
   <-> lowered severity = js "critical") /\
  (getSeverityColor severity = js "#ff5722"
   <-> lowered severity = js "high") /\
  (getSeverityColor severity = js "#ff9800"
   <-> lowered severity = js "medium") /\
  (getSeverityColor severity = js "#4caf50"
   <-> lowered severity = js "low") /\
  (getSeverityColor severity = js "#666"
   <-> ~ In (lowered severity)
          [js "critical"; js "high"; js "medium"; js "low"]).
Proof.
  destruct severity as [s|].
  - unfold getSeverityColor, lowered. cbv zeta.
    generalize (toLowerCase s). intros k.
    destruct (JsString.eqb k (js "critical")) eqn:E1;
      [apply eqb_eq in E1; subst k; vm_compute;
       repeat split; try discriminate; intuition discriminate |].
    destruct (JsString.eqb k (js "high")) eqn:E2;
      [apply eqb_eq in E2; subst k; vm_compute;
       repeat split; try discriminate; intuition discriminate |].
    destruct (JsString.eqb k (js "medium")) eqn:E3;
      [apply eqb_eq in E3; subst k; vm_compute;
       repeat split; try discriminate; intuition discriminate |].
    destruct (JsString.eqb k (js "low")) eqn:E4;
      [apply eqb_eq in E4; subst k; vm_compute;
       repeat split; try discriminate; intuition discriminate |].
    apply eqb_neq in E1, E2, E3, E4.
    split; [settle|]. split; [settle|]. split; [settle|]. split; [settle|].
    split; [intros _ | reflexivity].
    cbn [In]. intuition congruence.
  - vm_compute. repeat split; try discriminate; intuition discriminate.
Qed.

(** X11: the same for [getTypeColor] and its four names. *)
Theorem getTypeColor_exact_names type :
  (getTypeColor type = js "#f44336" <-> lowered type = js "bug") /\
  (getTypeColor type = js "#e91e63" <-> lowered type = js "security") /\
  (getTypeColor type = js "#ff9800" <-> lowered type = js "performance") /\
  (getTypeColor type = js "#2196f3" <-> lowered type = js "best_practice") /\
  (getTypeColor type = js "#666"
   <-> ~ In (lowered type)
          [js "bug"; js "security"; js "performance"; js "best_practice"]).
Proof.
  destruct type as [s|].
  - unfold getTypeColor, lowered. cbv zeta.
    generalize (toLowerCase s). intros k.
    destruct (JsString.eqb k (js "bug")) eqn:E1;
      [apply eqb_eq in E1; subst k; vm_compute;
       repeat split; try discriminate; intuition discriminate |].
    destruct (JsString.eqb k (js "security")) eqn:E2;
      [apply eqb_eq in E2; subst k; vm_compute;
       repeat split; try discriminate; intuition discriminate |].
    destruct (JsString.eqb k (js "performance")) eqn:E3;
      [apply eqb_eq in E3; subst k; vm_compute;
       repeat split; try discriminate; intuition discriminate |].
    destruct (JsString.eqb k (js "best_practice")) eqn:E4;
      [apply eqb_eq in E4; subst k; vm_compute;
       repeat split; try discriminate; intuition discriminate |].
    apply eqb_neq in E1, E2, E3, E4.
    split; [settle|]. split; [settle|]. split; [settle|]. split; [settle|].
    split; [intros _ | reflexivity].
    cbn [In]. intuition congruence.
  - vm_compute. repeat split; try discriminate; intuition discriminate.
Qed.

Lemma toLowerCase_nonEmpty s : nonEmpty (toLowerCase s) = nonEmpty s.
Proof. now destruct s. Qed.

Lemma sameLetter_lowerUnit a b : sameLetter a b -> lowerUnit a = lowerUnit b.
Proof.
  unfold sameLetter, lowerUnit.
  intros [-> | [[[La Ua] ->] | [[Lb Ub] ->]]]; [reflexivity | |].
  - rewrite (proj2 (N.leb_le 65 a) La), (proj2 (N.leb_le a 90) Ua).
    cbn [andb].
    assert (E : (a + 32 <=? 90)%N = false) by (apply N.leb_gt; lia).
    now rewrite E, andb_false_r.
  - rewrite (proj2 (N.leb_le 65 b) Lb), (proj2 (N.leb_le b 90) Ub).
    cbn [andb].
    assert (E : (b + 32 <=? 90)%N = false) by (apply N.leb_gt; lia).
    now rewrite E, andb_false_r.
Qed.

Lemma sameUpToCase_toLowerCase s t :
  sameUpToCase s t -> toLowerCase s = toLowerCase t.
Proof.
  induction 1 as [|a b s t Hab _ IH]; [reflexivity|].
  cbn [toLowerCase map]. rewrite (sameLetter_lowerUnit a b Hab).
  f_equal. exact IH.
Qed.

(** X12: the four encoders do not tell the case of ASCII letters: two
    texts that are equal but for letters A-Z written in the other case,
    at any positions, get the same complexity colour, complexity width,
    severity colour and type colour. *)
Theorem encoders_ignore_case s t :
  sameUpToCase s t ->
  getComplexityColor (Some s) = getComplexityColor (Some t) /\
  getComplexityWidth (Some s) = getComplexityWidth (Some t) /\
  getSeverityColor (Some s) = getSeverityColor (Some t) /\
  getTypeColor (Some s) = getTypeColor (Some t).
Proof.
  intros H. apply sameUpToCase_toLowerCase in H.
  rewrite !EncoderSpec.getComplexityColor_unfold,
          !EncoderSpec.getComplexityWidth_unfold.
  unfold getSeverityColor, getTypeColor, lowered. rewrite H.
  repeat split.
Qed.

Lemma encoders_ignore_case_witness :
  sameUpToCase (js "o(N Log n)") (js "O(n log N)") /\
  getComplexityWidth (Some (js "o(N Log n)"))
  = getComplexityWidth (Some (js "O(n log N)")) /\
  getSeverityColor (Some (js "o(N Log n)"))
  = getSeverityColor (Some (js "O(n log N)")).
Proof.
  assert (H : sameUpToCase (js "o(N Log n)") (js "O(n log N)")).
  { unfold sameUpToCase.
    let a := eval vm_compute in (js "o(N Log n)") in
    let b := eval vm_compute in (js "O(n log N)") in
    change (Forall2 sameLetter a b).
    repeat (apply Forall2_cons;
            [ unfold sameLetter;
              first [ left; reflexivity
                    | right; left; split; [lia | reflexivity]
                    | right; right; split; [lia | reflexivity] ] |]).
    apply Forall2_nil. }
  destruct (encoders_ignore_case (js "o(N Log n)") (js "O(n log N)") H)
    as (_ & A & B & _).
  split; [exact H | split; [exact A | exact B]].
Defined.

(** X13: the colour and the width of a complexity bar always tell the
    same class: green goes with 10%, light green with 20% or 30%, orange
    with 70%, red with 90%, and yellow and gray with 50%. *)
Theorem bar_colour_and_width_agree complexity :
  (getComplexityColor complexity = js "#4caf50"
   <-> getComplexityWidth complexity = js "10%") /\
  (getComplexityColor complexity = js "#8bc34a"
   <-> getComplexityWidth complexity = js "20%" \/
       getComplexityWidth complexity = js "30%") /\
  (getComplexityColor complexity = js "#ff9800"
   <-> getComplexityWidth complexity = js "70%") /\
  (getComplexityColor complexity = js "#f44336"
   <-> getComplexityWidth complexity = js "90%") /\
  (getComplexityColor complexity = js "#ffc107" \/
   getComplexityColor complexity = js "#666"
   <-> getComplexityWidth complexity = js "50%").
Proof.
  rewrite EncoderSpec.getComplexityColor_unfold,
          EncoderSpec.getComplexityWidth_unfold.
  cbv zeta. generalize (lowered complexity). intros comp.
  destruct (includes (js "o(1)") comp), (includes (js "o(log n)") comp),
    (includes (js "o(n)") comp), (includes (js "o(n log n)") comp),
    (includes o_n_squared comp), (includes (js "o(n^2)") comp),
    (includes (js "o(2^n)") comp), (includes (js "o(n!)") comp);
    vm_compute; intuition discriminate.
Qed.

End EncoderExtra.

(** ** Text formatter: plain text, spans and paragraphs *)

Module FormatterExtra.

Local Open Scope N_scope.

(** *** Text without delimiters goes through the replacements *)

Lemma replaceBold_free w : free asterisk w -> replaceBold w = w.
Proof.
  intros W. rewrite <- (app_nil_r w) at 1.
  rewrite (FormatterSpec.replaceBold_free_prefix w [] W).
  apply app_nil_r.
Qed.

Lemma last_cons {A} (x d : A) l : last (x :: l) d = last l x.
Proof.
  revert x d. induction l as [|y l IH]; intros x d; [reflexivity|].
  change (last (x :: y :: l) d) with (last (y :: l) d).
  now rewrite !IH.
Qed.

Lemma replaceItalic_from_free_prefix w rest prev :
  free asterisk w ->
  replaceItalic_from (length (w ++ rest)) prev (w ++ rest)
  = w ++ replaceItalic_from (length rest) (last (map Some w) prev) rest.
Proof.
  intros W. revert prev.
  induction W as [|c w Hc _ IH]; intros prev; [reflexivity|].
  cbn [app]. rewrite replaceItalic_from_cons.
  rewrite (FormatterSpec.matchItalic_free prev c _ Hc), IH.
  cbn [map]. now rewrite last_cons.
Qed.

Lemma replaceItalic_from_free w prev :
  free asterisk w -> replaceItalic_from (length w) prev w = w.
Proof.
  intros W. rewrite <- (app_nil_r w) at 1 2.
  rewrite (replaceItalic_from_free_prefix w [] prev W).
  cbn [length replaceItalic_from]. now rewrite !app_nil_r.
Qed.

Lemma matchCode_free c t : c <> backtick -> matchCode (c :: t) = None.
Proof.
  intros H. cbn [matchCode].
  now rewrite (proj2 (N.eqb_neq c backtick)) by exact H.
Qed.

Lemma replaceCode_free_prefix w rest :
  free backtick w -> replaceCode (w ++ rest) = w ++ replaceCode rest.
Proof.
  induction 1 as [|c w Hc _ IH]; [reflexivity|].
  cbn [app]. now rewrite replaceCode_cons, (matchCode_free c _ Hc), IH.
Qed.

Lemma replaceCode_free w : free backtick w -> replaceCode w = w.
Proof.
  intros W. rewrite <- (app_nil_r w) at 1.
  rewrite (replaceCode_free_prefix w [] W). apply app_nil_r.
Qed.

(** *** Splitting and line breaks *)

Lemma matchBlankLine_other c t : c <> LF -> matchBlankLine (c :: t) = None.
Proof.
  intros H. unfold matchBlankLine. cbn [startsWith].
  now rewrite (proj2 (N.eqb_neq LF c)) by congruence.
Qed.

Lemma splitParagraphs_pieces s : splitParagraphs s <> [].
Proof. apply split_from_pieces. Qed.

Lemma splitParagraphs_prefix p s :
  free LF p ->
  splitParagraphs (p ++ s)
  = (p ++ hd [] (splitParagraphs s)) :: tl (splitParagraphs s).
Proof.
  pose proof (splitParagraphs_pieces s) as NE.
  induction 1 as [|c p Hc _ IH].
  - cbn [app]. now destruct (splitParagraphs s).
  - cbn [app]. rewrite splitParagraphs_cons, (matchBlankLine_other c _ Hc), IH.
    reflexivity.
Qed.

Lemma splitParagraphs_free p : free LF p -> splitParagraphs p = [p].
Proof.
  intros P. rewrite <- (app_nil_r p) at 1.
  rewrite (splitParagraphs_prefix p [] P). cbn. now rewrite app_nil_r.
Qed.

Lemma dropLF_repeat n q :
  hd_error q <> Some LF -> dropLF (repeat LF n ++ q) = q.
Proof.
  intros H. induction n as [|n IH]; [|exact IH].
  destruct q as [|c q]; [reflexivity|]. cbn [app repeat dropLF].
  destruct (c =? LF) eqn:E; [|reflexivity].
  apply N.eqb_eq in E. subst c. now contradiction H.
Qed.

Lemma lineBreaks_free s : free LF s -> lineBreaks s = s.
Proof.
  unfold lineBreaks. induction 1 as [|c s Hc _ IH]; [reflexivity|].
  cbn [flat_map]. rewrite (proj2 (N.eqb_neq c LF)) by exact Hc.
  cbn [app]. now rewrite IH.
Qed.

Lemma lineBreaks_no_LF s : free LF (lineBreaks s).
Proof.
  unfold lineBreaks. induction s as [|c s IH]; [constructor|].
  cbn [flat_map]. apply FormatterSpec.free_app; [|exact IH].
  destruct (c =? LF) eqn:E.
  - repeat constructor; discriminate.
  - apply N.eqb_neq in E. now repeat constructor.
Qed.

(** *** Trimming *)

Lemma Forall_trimStart (P : N -> Prop) s :
  Forall P s -> Forall P (trimStart s).
Proof.
  induction 1 as [|c s Hc Hs IH]; [constructor|]. cbn [trimStart].
  destruct (isTrimmed c); [exact IH | now constructor].
Qed.

Lemma Forall_trim (P : N -> Prop) s : Forall P s -> Forall P (trim s).
Proof.
  intros H. unfold trim, trimEnd.
  rewrite <- (rev_involutive (trimStart s)) in *.
  apply Forall_rev, Forall_trimStart. rewrite rev_involutive.
  apply Forall_rev, Forall_trimStart, H.
Qed.

Lemma trimStart_length s : (length (trimStart s) <= length s)%nat.
Proof.
  induction s as [|c s IH]; [reflexivity|]. cbn [trimStart].
  destruct (isTrimmed c); cbn [length]; lia.
Qed.

Lemma trimEnd_length s : (length (trimEnd s) <= length s)%nat.
Proof.
  unfold trimEnd. rewrite length_rev.
  pose proof (trimStart_length (rev s)) as H. now rewrite length_rev in H.
Qed.

Lemma trimStart_same_length s :
  length (trimStart s) = length s -> trimStart s = s.
Proof.
  destruct s as [|c s]; [reflexivity|]. cbn [trimStart].
  destruct (isTrimmed c); [|reflexivity].
  pose proof (trimStart_length s). cbn [length]. lia.
Qed.

(** A text that trimming leaves as it is keeps its two ends. *)
Lemma trim_fixed s : trim s = s -> trimStart s = s /\ trimEnd s = s.
Proof.
  intros H.
  assert (L : length (trimStart s) = length s).
  { pose proof (trimStart_length s). pose proof (trimEnd_length (trimStart s)).
    apply (f_equal (@length N)) in H. unfold trim in H. lia. }
  apply trimStart_same_length in L. unfold trim in H. rewrite L in H.
  now split.
Qed.

Lemma trimStart_app p x : p <> [] -> trimStart p = p -> trimStart (p ++ x) = p ++ x.
Proof.
  destruct p as [|c p]; [congruence|]. intros _. cbn [trimStart app].
  destruct (isTrimmed c) eqn:E; [|reflexivity].
  intros H. pose proof (trimStart_length p) as L.
  apply (f_equal (@length N)) in H. cbn [length] in H. lia.
Qed.

Lemma trimEnd_app x q : q <> [] -> trimEnd q = q -> trimEnd (x ++ q) = x ++ q.
Proof.
  unfold trimEnd. intros Hq H.
  assert (R : trimStart (rev q) = rev q).
  { apply (f_equal (@rev N)) in H. now rewrite rev_involutive in H. }
  rewrite rev_app_distr, trimStart_app; [| | exact R].
  - now rewrite <- rev_app_distr, rev_involutive.
  - intros E. apply Hq. apply (f_equal (@rev N)) in E.
    now rewrite rev_involutive in E.
Qed.

Lemma trim_between p x q :
  p <> [] -> q <> [] -> trim p = p -> trim q = q ->
  trim (p ++ x ++ q) = p ++ x ++ q.
Proof.
  intros Hp Hq Tp Tq. apply trim_fixed in Tp, Tq.
  unfold trim. rewrite (trimStart_app p (x ++ q) Hp (proj1 Tp)).
  rewrite app_assoc. now rewrite (trimEnd_app (p ++ x) q Hq (proj2 Tq)).
Qed.

(** *** What the formatter gives *)

Lemma wrapped_no_LF (paras : list jsstring) :
  free LF (concat (map (fun para => js "<p>" ++ lineBreaks para ++ js "</p>")
                       paras)).
Proof.
  induction paras as [|para paras IH]; [constructor|].
  cbn [map concat]. apply FormatterSpec.free_app; [|exact IH].
  apply FormatterSpec.free_app; [repeat constructor; discriminate|].
  apply FormatterSpec.free_app; [apply lineBreaks_no_LF|].
  repeat constructor; discriminate.
Qed.

(** X14: the formatted text never holds a line feed: every line feed of
    the input is part of a paragraph boundary, is trimmed away, or is
    turned into a break tag. *)
Theorem formatExplanation_has_no_line_feed text :
  free LF (formatExplanation text).
Proof.
  destruct text as [t|]; [|constructor]. unfold formatExplanation.
  destruct (nonEmpty t); cbn [negb]; [|constructor].
  apply wrapped_no_LF.
Qed.

(** X15: a text without asterisk, backtick and line feed is trimmed and
    wrapped in one paragraph, every other character as it is, the
    characters that HTML gives a meaning included; when nothing is left
    after trimming, the result is empty. *)
Theorem plain_text_is_one_paragraph text :
  plain text ->
  formatExplanation (Some text) =
    if nonEmpty (trim text) then js "<p>" ++ trim text ++ js "</p>" else [].
Proof.
  intros (A & B & L). destruct text as [|c t]; [reflexivity|].
  unfold formatExplanation, paragraphs. cbn [nonEmpty negb].
  rewrite (replaceBold_free _ A). unfold replaceItalic.
  rewrite (replaceItalic_from_free _ None A), (replaceCode_free _ B).
  rewrite (splitParagraphs_free _ L). cbn [map filter].
  destruct (nonEmpty (trim (c :: t))); [|reflexivity].
  cbn [map concat]. rewrite (lineBreaks_free _ (Forall_trim _ _ L)).
  now rewrite app_nil_r.
Qed.

Lemma plain_text_is_one_paragraph_witness :
  plain (js " if (a<b) x &= 1; ") /\
  formatExplanation (Some (js " if (a<b) x &= 1; "))
  = js "<p>if (a<b) x &= 1;</p>".
Proof.
  assert (P : plain (js " if (a<b) x &= 1; ")).
  { repeat split; repeat constructor; discriminate. }
  split; [exact P|].
  rewrite (plain_text_is_one_paragraph (js " if (a<b) x &= 1; ") P).
  reflexivity.
Defined.

(** *** Spans *)

Lemma lazyToBoldClose_found u rest :
  free asterisk u -> singleLine u ->
  lazyToBoldClose (u ++ js "**" ++ rest) = Some (u, rest).
Proof.
  intros U. induction U as [|c u Hc _ IH]; intros S.
  - reflexivity.
  - inversion S as [|? ? Sc Su]; subst.
    cbn [app lazyToBoldClose startsWith].
    rewrite (proj2 (N.eqb_neq asterisk c)) by congruence. cbn [andb].
    rewrite Sc. now rewrite (IH Su).
Qed.

(** X16: a pair of double asterisks around a text of one line that has
    no asterisk becomes a strong span, the empty text included; what
    stands before it without asterisk is kept and what follows is
    formatted in turn. *)
Theorem bold_pair_becomes_strong pre u rest :
  free asterisk pre -> free asterisk u -> singleLine u ->
  replaceBold (pre ++ js "**" ++ u ++ js "**" ++ rest)
  = pre ++ js "<strong>" ++ u ++ js "</strong>" ++ replaceBold rest.
Proof.
  intros P U S. rewrite (FormatterSpec.replaceBold_free_prefix _ _ P).
  f_equal. change (js "**" ++ u ++ js "**" ++ rest)
    with (asterisk :: asterisk :: u ++ js "**" ++ rest).
  rewrite replaceBold_cons. unfold matchBold.
  cbn [startsWith skipn]. rewrite !N.eqb_refl. cbn [andb].
  now rewrite (lazyToBoldClose_found u rest U S).
Qed.

Lemma bold_pair_becomes_strong_witness :
  free asterisk (js "see ") /\ free asterisk (js "x") /\ singleLine (js "x") /\
  replaceBold (js "see " ++ js "**" ++ js "x" ++ js "**" ++ js "!")
  = js "see <strong>x</strong>!".
Proof.
  assert (A : free asterisk (js "see ")) by (repeat constructor; discriminate).
  assert (B : free asterisk (js "x")) by (repeat constructor; discriminate).
  assert (C : singleLine (js "x")) by (repeat constructor).
  split; [exact A | split; [exact B | split; [exact C |]]].
  rewrite (bold_pair_becomes_strong (js "see ") (js "x") (js "!") A B C).
  reflexivity.
Defined.

Lemma isAsterisk_last w prev :
  free asterisk w -> isAsterisk prev = false ->
  isAsterisk (last (map Some w) prev) = false.
Proof.
  intros W. revert prev. induction W as [|c w Hc _ IH]; intros prev Hp.
  - exact Hp.
  - cbn [map]. rewrite last_cons. apply IH. cbn [isAsterisk].
    now apply N.eqb_neq.
Qed.

Lemma lazyToItalicClose_found u rest prev :
  free asterisk u -> singleLine u ->
  (u = [] -> prev <> asterisk) ->
  isAsterisk (hd_error rest) = false ->
  lazyToItalicClose prev (u ++ asterisk :: rest) = Some (u, rest).
Proof.
  intros U. revert prev. induction U as [|c u Hc _ IH]; intros prev S Hp Hr.
  - cbn [app lazyToItalicClose loneAsterisk]. rewrite N.eqb_refl, Hr.
    cbn [isAsterisk]. rewrite (proj2 (N.eqb_neq prev asterisk)) by auto.
    reflexivity.
  - inversion S as [|? ? Sc Su]; subst.
    cbn [app lazyToItalicClose loneAsterisk].
    rewrite (proj2 (N.eqb_neq c asterisk)) by exact Hc. cbn [andb].
    rewrite Sc. now rewrite (IH c Su (fun _ => Hc) Hr).
Qed.

Lemma hd_not_asterisk s : free asterisk s -> isAsterisk (hd_error s) = false.
Proof.
  intros [|c s' Hc _]; [reflexivity|]. cbn. now apply N.eqb_neq.
Qed.

(** X17: a pair of single asterisks around a non-empty text of one line,
    in a text with no other asterisk, becomes an emphasis span, and the
    rest of the text is kept. *)
Theorem italic_pair_becomes_em pre u rest :
  free asterisk pre -> free asterisk u -> singleLine u -> u <> [] ->
  free asterisk rest ->
  replaceItalic (pre ++ js "*" ++ u ++ js "*" ++ rest)
  = pre ++ js "<em>" ++ u ++ js "</em>" ++ rest.
Proof.
  intros P U S NE R. unfold replaceItalic.
  rewrite (replaceItalic_from_free_prefix pre _ None P). f_equal.
  pose proof (isAsterisk_last pre None P eq_refl) as Hp.
  change (js "*" ++ u ++ js "*" ++ rest)
    with (asterisk :: u ++ asterisk :: rest).
  rewrite replaceItalic_from_cons.
  assert (M : matchItalic (last (map Some pre) None)
                (asterisk :: u ++ asterisk :: rest) = Some (u, rest)).
  { unfold matchItalic. cbn [loneAsterisk]. rewrite N.eqb_refl, Hp.
    assert (Hu : isAsterisk (hd_error (u ++ asterisk :: rest)) = false).
    { destruct u as [|c u']; [congruence|]. cbn.
      inversion U; subst. now apply N.eqb_neq. }
    rewrite Hu. cbn [negb andb].
    apply lazyToItalicClose_found; auto.
    now apply hd_not_asterisk. }
  rewrite M. now rewrite (replaceItalic_from_free rest _ R).
Qed.

Lemma italic_pair_becomes_em_witness :
  free asterisk (js "a ") /\ free asterisk (js "b") /\ singleLine (js "b") /\
  js "b" <> [] /\ free asterisk (js " c") /\
  replaceItalic (js "a " ++ js "*" ++ js "b" ++ js "*" ++ js " c")
  = js "a <em>b</em> c".
Proof.
  assert (A : free asterisk (js "a ")) by (repeat constructor; discriminate).
  assert (B : free asterisk (js "b")) by (repeat constructor; discriminate).
  assert (C : singleLine (js "b")) by (repeat constructor).
  assert (D : js "b" <> []) by discriminate.
  assert (E : free asterisk (js " c")) by (repeat constructor; discriminate).
  split; [exact A | split; [exact B | split; [exact C | split; [exact D |
    split; [exact E |]]]]].
  rewrite (italic_pair_becomes_em (js "a ") (js "b") (js " c") A B C D E).
  reflexivity.
Defined.

Lemma replaceItalic_from_double prev x :
  replaceItalic_from (length (asterisk :: asterisk :: x)) prev
    (asterisk :: asterisk :: x)
  = asterisk :: asterisk :: replaceItalic_from (length x) (Some asterisk) x.
Proof.
  rewrite replaceItalic_from_cons.
  assert (M1 : matchItalic prev (asterisk :: asterisk :: x) = None).
  { unfold matchItalic. cbn [loneAsterisk hd_error isAsterisk].
    rewrite N.eqb_refl. cbn [negb]. now rewrite andb_false_r. }
  rewrite M1, replaceItalic_from_cons.
  assert (M2 : matchItalic (Some asterisk) (asterisk :: x) = None).
  { unfold matchItalic. cbn [loneAsterisk isAsterisk].
    rewrite N.eqb_refl. reflexivity. }
  now rewrite M2.
Qed.

(** X18: the italic replacement does not take a double asterisk for a
    delimiter: a pair of double asterisks in a text with no other
    asterisk is left as it is. *)
Theorem italic_leaves_double_asterisks pre u post :
  free asterisk pre -> free asterisk u -> free asterisk post ->
  replaceItalic (pre ++ js "**" ++ u ++ js "**" ++ post)
  = pre ++ js "**" ++ u ++ js "**" ++ post.
Proof.
  intros P U Q. unfold replaceItalic.
  rewrite (replaceItalic_from_free_prefix pre _ None P). f_equal.
  change (js "**" ++ u ++ js "**" ++ post)
    with (asterisk :: asterisk :: u ++ asterisk :: asterisk :: post).
  rewrite replaceItalic_from_double. do 2 f_equal.
  rewrite (replaceItalic_from_free_prefix u _ _ U). f_equal.
  rewrite replaceItalic_from_double. do 2 f_equal.
  apply (replaceItalic_from_free post _ Q).
Qed.

Lemma italic_leaves_double_asterisks_witness :
  free asterisk (js "a") /\ free asterisk (js "b") /\ free asterisk (js "c") /\
  replaceItalic (js "a" ++ js "**" ++ js "b" ++ js "**" ++ js "c")
  = js "a**b**c".
Proof.
  assert (A : free asterisk (js "a")) by (repeat constructor; discriminate).
  assert (B : free asterisk (js "b")) by (repeat constructor; discriminate).
  assert (C : free asterisk (js "c")) by (repeat constructor; discriminate).
  split; [exact A | split; [exact B | split; [exact C |]]].
  rewrite (italic_leaves_double_asterisks (js "a") (js "b") (js "c") A B C).
  reflexivity.
Defined.

(** X19: a pair of backticks around a non-empty text without backtick
    becomes a code span; what stands before it without backtick is kept
    and what follows is formatted in turn. *)
Theorem backtick_pair_becomes_code pre u rest :
  free backtick pre -> free backtick u -> u <> [] ->
  replaceCode (pre ++ js "`" ++ u ++ js "`" ++ rest)
  = pre ++ codeOpen ++ u ++ js "</code>" ++ replaceCode rest.
Proof.
  intros P U NE. rewrite (replaceCode_free_prefix _ _ P). f_equal.
  change (js "`" ++ u ++ js "`" ++ rest) with (backtick :: u ++ backtick :: rest).
  rewrite replaceCode_cons. cbn [matchCode]. rewrite N.eqb_refl.
  rewrite (FormatterSpec.toBacktick_free u rest U).
  apply nonEmpty_true_iff in NE. now rewrite NE.
Qed.

Lemma backtick_pair_becomes_code_witness :
  free backtick (js "run ") /\ free backtick (js "ls") /\ js "ls" <> [] /\
  replaceCode (js "run " ++ js "`" ++ js "ls" ++ js "`" ++ js "")
  = js "run " ++ codeOpen ++ js "ls</code>".
Proof.
  assert (A : free backtick (js "run ")) by (repeat constructor; discriminate).
  assert (B : free backtick (js "ls")) by (repeat constructor; discriminate).
  assert (C : js "ls" <> []) by discriminate.
  split; [exact A | split; [exact B | split; [exact C |]]].
  rewrite (backtick_pair_becomes_code (js "run ") (js "ls") (js "") A B C).
  reflexivity.
Defined.

(** *** Delimiters that are not closed *)

Lemma lazyToBoldClose_free u : free asterisk u -> lazyToBoldClose u = None.
Proof.
  induction 1 as [|c u Hc _ IH]; [reflexivity|].
  cbn [lazyToBoldClose startsWith].
  rewrite (proj2 (N.eqb_neq asterisk c)) by congruence. cbn [andb].
  rewrite IH. now destruct (isLineTerminator c).
Qed.

Lemma lazyToItalicClose_free u prev :
  free asterisk u -> lazyToItalicClose prev u = None.
Proof.
  intros U. revert prev. induction U as [|c u Hc _ IH]; intros prev;
    [reflexivity|].
  cbn [lazyToItalicClose loneAsterisk].
  rewrite (proj2 (N.eqb_neq c asterisk)) by exact Hc. cbn [andb].
  rewrite IH. now destruct (isLineTerminator c).
Qed.

Lemma toBacktick_none u : free backtick u -> toBacktick u = None.
Proof.
  induction 1 as [|c u Hc _ IH]; [reflexivity|]. cbn [toBacktick].
  rewrite (proj2 (N.eqb_neq c backtick)) by exact Hc. now rewrite IH.
Qed.

(** X20: a delimiter that is never closed is kept as text: when nothing
    but the one "**", the one "*" or the one backtick is in the text,
    the bold, the italic and the code replacement leave the text as it
    is. *)
Theorem unclosed_delimiter_is_kept pre u :
  (free asterisk pre -> free asterisk u ->
   replaceBold (pre ++ js "**" ++ u) = pre ++ js "**" ++ u) /\
  (free asterisk pre -> free asterisk u ->
   replaceItalic (pre ++ js "*" ++ u) = pre ++ js "*" ++ u) /\
  (free backtick pre -> free backtick u ->
   replaceCode (pre ++ js "`" ++ u) = pre ++ js "`" ++ u).
Proof.
  split; [|split].
  - intros P U. rewrite (FormatterSpec.replaceBold_free_prefix _ _ P). f_equal.
    change (js "**" ++ u) with (asterisk :: asterisk :: u).
    rewrite replaceBold_cons. unfold matchBold at 1.
    cbn [startsWith skipn]. rewrite !N.eqb_refl. cbn [andb].
    rewrite (lazyToBoldClose_free u U). f_equal.
    rewrite replaceBold_cons. unfold matchBold.
    assert (E : startsWith [asterisk; asterisk] (asterisk :: u) = false).
    { cbn [startsWith]. rewrite N.eqb_refl. cbn [andb].
      destruct U as [|c u' Hc _]; [reflexivity|].
      now rewrite (proj2 (N.eqb_neq asterisk c)) by congruence. }
    rewrite E. f_equal. now apply replaceBold_free.
  - intros P U. unfold replaceItalic.
    rewrite (replaceItalic_from_free_prefix pre _ None P). f_equal.
    change (js "*" ++ u) with (asterisk :: u).
    rewrite replaceItalic_from_cons.
    assert (M : matchItalic (last (map Some pre) None) (asterisk :: u) = None).
    { unfold matchItalic.
      destruct (loneAsterisk (last (map Some pre) None) (asterisk :: u))
        as [t|] eqn:E; [|reflexivity].
      apply loneAsterisk_Some in E. injection E as <-.
      now apply lazyToItalicClose_free. }
    rewrite M. f_equal. now apply replaceItalic_from_free.
  - intros P U. rewrite (replaceCode_free_prefix _ _ P). f_equal.
    change (js "`" ++ u) with (backtick :: u).
    rewrite replaceCode_cons. cbn [matchCode]. rewrite N.eqb_refl.
    rewrite (toBacktick_none u U). f_equal. now apply replaceCode_free.
Qed.

Lemma unclosed_delimiter_is_kept_witness :
  free asterisk (js "2 ") /\ free asterisk (js " 3") /\
  replaceItalic (js "2 " ++ js "*" ++ js " 3") = js "2 * 3".
Proof.
  assert (A : free asterisk (js "2 ")) by (repeat constructor; discriminate).
  assert (B : free asterisk (js " 3")) by (repeat constructor; discriminate).
  split; [exact A | split; [exact B |]].
  rewrite (proj1 (proj2 (unclosed_delimiter_is_kept (js "2 ") (js " 3"))) A B).
  reflexivity.
Defined.

(** *** Paragraphs *)

Lemma repeat_LF_two n x :
  (2 <= n)%nat -> exists m, repeat LF n ++ x = LF :: LF :: repeat LF m ++ x.
Proof.
  intros H. destruct n as [|[|m]]; try lia. now exists m.
Qed.

Lemma splitParagraphs_blank_lines p q n :
  free LF p -> (2 <= n)%nat -> hd_error q <> Some LF ->
  splitParagraphs (p ++ repeat LF n ++ q) = p :: splitParagraphs q.
Proof.
  intros P Hn Hq. rewrite (splitParagraphs_prefix p _ P).
  destruct (repeat_LF_two n q Hn) as [m E].
  assert (D : dropLF (repeat LF n ++ q) = q) by now apply dropLF_repeat.
  rewrite E in *. rewrite splitParagraphs_cons. unfold matchBlankLine.
  cbn [startsWith]. rewrite !N.eqb_refl. cbn [andb]. rewrite D.
  cbn [hd tl]. now rewrite app_nil_r.
Qed.

Lemma splitParagraphs_single_LF p q :
  free LF p -> free LF q ->
  splitParagraphs (p ++ [LF] ++ q) = [p ++ [LF] ++ q].
Proof.
  intros P Q. rewrite (splitParagraphs_prefix p _ P).
  change ([LF] ++ q) with (LF :: q). rewrite splitParagraphs_cons.
  assert (M : matchBlankLine (LF :: q) = None).
  { unfold matchBlankLine. cbn [startsWith]. rewrite N.eqb_refl.
    destruct Q as [|c q' Hc _]; [reflexivity|].
    now rewrite (proj2 (N.eqb_neq LF c)) by congruence. }
  rewrite M, (splitParagraphs_free q Q). reflexivity.
Qed.

(** X21: a run of two or more line feeds, however long, is one
    paragraph boundary, and a single line feed is none: it stays in its
    piece. *)
Theorem blank_lines_separate_paragraphs p q :
  free LF p ->
  (forall n, (2 <= n)%nat -> hd_error q <> Some LF ->
     splitParagraphs (p ++ repeat LF n ++ q) = p :: splitParagraphs q) /\
  (free LF q -> splitParagraphs (p ++ [LF] ++ q) = [p ++ [LF] ++ q]).
Proof.
  intros P. split.
  - intros n Hn Hq. now apply splitParagraphs_blank_lines.
  - intros Q. now apply splitParagraphs_single_LF.
Qed.

Lemma blank_lines_separate_paragraphs_witness :
  free LF (js "a") /\ hd_error (js "b") <> Some LF /\
  splitParagraphs (js "a" ++ repeat LF 3 ++ js "b") = [js "a"; js "b"].
Proof.
  assert (A : free LF (js "a")) by (repeat constructor; discriminate).
  assert (B : hd_error (js "b") <> Some LF) by discriminate.
  split; [exact A | split; [exact B |]].
  rewrite (proj1 (blank_lines_separate_paragraphs (js "a") (js "b") A)
             3%nat ltac:(lia) B).
  reflexivity.
Defined.

Lemma free_repeat_LF d n : LF <> d -> free d (repeat LF n).
Proof.
  intros H. induction n; constructor; auto.
Qed.

Lemma plain_head p : plain p -> hd_error p <> Some LF.
Proof.
  intros (_ & _ & L). destruct L as [|c p' Hc _]; [discriminate|].
  cbn. congruence.
Qed.

(** X22: two texts without markup and without white space at their ends
    give two paragraphs when two or more line feeds stand between them,
    and one paragraph with a break tag when one line feed does. *)
Theorem paragraphs_and_line_breaks p q :
  plain p -> plain q -> trim p = p -> trim q = q -> p <> [] -> q <> [] ->
  (forall n, (2 <= n)%nat ->
     formatExplanation (Some (p ++ repeat LF n ++ q))
     = js "<p>" ++ p ++ js "</p><p>" ++ q ++ js "</p>") /\
  formatExplanation (Some (p ++ [LF] ++ q))
  = js "<p>" ++ p ++ js "<br>" ++ q ++ js "</p>".
Proof.
  intros Pp Pq Tp Tq Np Nq.
  pose proof Pp as (Ap & Bp & Lp). pose proof Pq as (Aq & Bq & Lq).
  assert (NEp : nonEmpty p = true) by now apply nonEmpty_true_iff.
  assert (NEq : nonEmpty q = true) by now apply nonEmpty_true_iff.
  split.
  - intros n Hn.
    assert (A : free asterisk (p ++ repeat LF n ++ q)).
    { repeat apply FormatterSpec.free_app; auto.
      apply free_repeat_LF. discriminate. }
    assert (B : free backtick (p ++ repeat LF n ++ q)).
    { repeat apply FormatterSpec.free_app; auto.
      apply free_repeat_LF. discriminate. }
    unfold formatExplanation, paragraphs.
    assert (NE : nonEmpty (p ++ repeat LF n ++ q) = true) by now destruct p.
    rewrite NE. cbn [negb].
    rewrite (replaceBold_free _ A). unfold replaceItalic.
    rewrite (replaceItalic_from_free _ None A), (replaceCode_free _ B).
    rewrite (splitParagraphs_blank_lines p q n Lp Hn (plain_head q Pq)).
    rewrite (splitParagraphs_free q Lq). cbn [map filter].
    rewrite Tp, Tq, NEp, NEq. cbn [map concat].
    rewrite (lineBreaks_free p Lp), (lineBreaks_free q Lq).
    rewrite app_nil_r, <- !app_assoc. reflexivity.
  - assert (A : free asterisk (p ++ [LF] ++ q)).
    { apply FormatterSpec.free_line; auto. discriminate. }
    assert (B : free backtick (p ++ [LF] ++ q)).
    { apply FormatterSpec.free_line; auto. discriminate. }
    unfold formatExplanation, paragraphs.
    assert (NE : nonEmpty (p ++ [LF] ++ q) = true) by now destruct p.
    rewrite NE. cbn [negb].
    rewrite (replaceBold_free _ A). unfold replaceItalic.
    rewrite (replaceItalic_from_free _ None A), (replaceCode_free _ B).
    rewrite (splitParagraphs_single_LF p q Lp Lq).
    cbn [map filter]. rewrite (trim_between p [LF] q Np Nq Tp Tq).
    rewrite NE. cbn [map concat]. unfold lineBreaks.
    rewrite !flat_map_app. fold (lineBreaks p). fold (lineBreaks q).
    rewrite (lineBreaks_free p Lp), (lineBreaks_free q Lq).
    rewrite app_nil_r, <- !app_assoc. reflexivity.
Qed.

Lemma paragraphs_and_line_breaks_witness :
  plain (js "one") /\ plain (js "two") /\
  formatExplanation (Some (js "one" ++ [LF] ++ js "two"))
  = js "<p>one<br>two</p>".
Proof.
  assert (P : plain (js "one"))
    by (repeat split; repeat constructor; discriminate).
  assert (Q : plain (js "two"))
    by (repeat split; repeat constructor; discriminate).
  split; [exact P | split; [exact Q |]].
  rewrite (proj2 (paragraphs_and_line_breaks (js "one") (js "two") P Q
                    eq_refl eq_refl ltac:(discriminate) ltac:(discriminate))).
  reflexivity.
Defined.

End FormatterExtra.

(** ** Presentation *)

Module PresentationFacts.

Lemma isMode_true resultMode name :
  isMode resultMode name = true <-> resultMode = Json (JStr name).
Proof.
  unfold isMode. destruct resultMode as [|[| | |s| |]];
    try (split; [discriminate | intros H; discriminate H]).
  rewrite EncoderExtra.eqb_eq. split; congruence.
Qed.

(** The state a successful answer leaves. *)
Lemma success_state env mode st r fields :
  trim (code st) <> [] ->
  ok r = true -> json_ r = inr (JObj fields) ->
  truthy (lookup (js "success") fields) = true ->
  result (fst (handleAction env mode (Responded r) st))
    = lookup (js "data") fields /\
  resultMode (fst (handleAction env mode (Responded r) st))
    = lookup (js "mode") fields /\
  error (fst (handleAction env mode (Responded r) st)) = None.
Proof.
  intros H Hok Hbody Hs. rewrite (handleAction_accepted env mode _ _ H).
  cbn [fst]. unfold handleAction_resume.
  rewrite (tryBody_success r fields Hok Hbody Hs). repeat split.
Qed.

(** X23: while a request is pending nothing of an outcome is on the
    page: no error box, no results panel and therefore no Clear button,
    so [handleClear] cannot run between a request and its answer. *)
Theorem nothing_shown_while_loading env a :
  reachable env a -> loading (session a) = true ->
  page (session a) = {| errorBox := Hidden; resultsPanel := inl Hidden |} /\
  clearButtons (session a) = 0.
Proof.
  intros Hr L.
  destruct (reachable_consistent env a Hr)
    as [(_ & L' & _) | (_ & _ & _ & R & E)]; [congruence|].
  unfold clearButtons, page. rewrite R, E. split; reflexivity.
Qed.

Lemma nothing_shown_while_loading_witness :
  let a := run None (reviewThenBlank ++ [TypeCode (js "x"); ClickAction Fix]) in
  reachable None a /\ loading (session a) = true /\
  clearButtons (session a) = 0.
Proof.
  cbv zeta.
  pose proof (run_reachable None
                (reviewThenBlank ++ [TypeCode (js "x"); ClickAction Fix])) as Hr.
  split; [exact Hr | split; [reflexivity|]].
  exact (proj2 (nothing_shown_while_loading None _ Hr eq_refl)).
Defined.

(** X24: an explanation from end to end.  Whatever mode was asked for,
    when the service answers 2xx with a truthy [success], the mode
    "explain" and a data object whose [explanation] is a non-empty
    string, the page shows the panel headed "Code Explanation" with the
    explanation section alone, whose markup is [formatExplanation] of
    that string, one Clear button and no error box. *)
Theorem explanation_is_shown_formatted env mode st r fields d s :
  trim (code st) <> [] ->
  ok r = true -> json_ r = inr (JObj fields) ->
  truthy (lookup (js "success") fields) = true ->
  lookup (js "mode") fields = Json (JStr (js "explain")) ->
  lookup (js "data") fields = Json (JObj d) ->
  lookup (js "explanation") d = Json (JStr s) -> s <> [] ->
  page (fst (handleAction env mode (Responded r) st))
  = {| errorBox := Hidden;
       resultsPanel :=
         inr {| heading := js "Code Explanation";
                forReview := Hidden; forFix := Hidden; forOptimize := Hidden;
                forExplain := Explanation (Json (JStr s)) |} |} /\
  explanationHtml (fst (handleAction env mode (Responded r) st))
  = Some (Return (formatExplanation (Some s))) /\
  clearButtons (fst (handleAction env mode (Responded r) st)) = 1.
Proof.
  intros H Hok Hbody Hs Hm Hd He Hne.
  destruct (success_state env mode st r fields H Hok Hbody Hs) as (R & M & E).
  rewrite Hd in R. rewrite Hm in M.
  apply nonEmpty_true_iff in Hne.
  assert (P : page (fst (handleAction env mode (Responded r) st))
              = {| errorBox := Hidden;
                   resultsPanel :=
                     inr {| heading := js "Code Explanation";
                            forReview := Hidden; forFix := Hidden;
                            forOptimize := Hidden;
                            forExplain := Explanation (Json (JStr s)) |} |}).
  { unfold page, panelOf. rewrite R, M, E. cbn [truthy member].
    change (isMode (Json (JStr (js "explain"))) (js "review")) with false.
    change (isMode (Json (JStr (js "explain"))) (js "fix")) with false.
    change (isMode (Json (JStr (js "explain"))) (js "optimize")) with false.
    change (isMode (Json (JStr (js "explain"))) (js "explain")) with true.
    unfold andThen. rewrite He. cbn [truthy]. rewrite Hne. reflexivity. }
  unfold explanationHtml, clearButtons. rewrite P.
  repeat split.
Qed.

Lemma explanation_is_shown_formatted_witness :
  let body := successBody "explain"
                (JObj [(js "explanation", JStr (js "**a** b"))]) in
  trim (code typed) <> [] /\
  explanationHtml (fst (handleAction None Explain (answers body) typed))
  = Some (Return (js "<p><strong>a</strong> b</p>")).
Proof.
  cbv zeta.
  assert (H : trim (code typed) <> []) by (vm_compute; discriminate).
  split; [exact H|].
  destruct (explanation_is_shown_formatted None Explain typed
              {| status := 200;
                 json_ := inr (successBody "explain"
                          (JObj [(js "explanation", JStr (js "**a** b"))])) |}
              [(js "success", JBool true); (js "mode", JStr (js "explain"));
               (js "data", JObj [(js "explanation", JStr (js "**a** b"))])]
              [(js "explanation", JStr (js "**a** b"))] (js "**a** b")
              H eq_refl eq_refl eq_refl eq_refl eq_refl eq_refl
              ltac:(discriminate)) as (_ & A & _).
  exact A.
Defined.

(** X25: an explanation that is truthy but not a string (a number, an
    array, an object, [true]) is handed to [formatExplanation] all the
    same, which throws while the page is drawn. *)
Theorem explanation_not_a_string_throws env mode st r fields d v :
  trim (code st) <> [] ->
  ok r = true -> json_ r = inr (JObj fields) ->
  truthy (lookup (js "success") fields) = true ->
  lookup (js "mode") fields = Json (JStr (js "explain")) ->
  lookup (js "data") fields = Json (JObj d) ->
  lookup (js "explanation") d = Json v ->
  truthy (Json v) = true -> (forall s, v <> JStr s) ->
  explanationHtml (fst (handleAction env mode (Responded r) st))
  = Some (Throw (js "text.replace is not a function")).
Proof.
  intros H Hok Hbody Hs Hm Hd He Ht Hv.
  destruct (success_state env mode st r fields H Hok Hbody Hs) as (R & M & E).
  rewrite Hd in R. rewrite Hm in M.
  unfold explanationHtml, page, panelOf. rewrite R, M. cbn [truthy member].
  change (isMode (Json (JStr (js "explain"))) (js "explain")) with true.
  cbn [resultsPanel forExplain]. unfold andThen. rewrite He, Ht.
  unfold formatExplanationOf. rewrite Ht.
  destruct v; try reflexivity. now contradiction (Hv s).
Qed.

Lemma explanation_not_a_string_throws_witness :
  let body := successBody "explain" (JObj [(js "explanation", JNum 42)]) in
  trim (code typed) <> [] /\
  explanationHtml (fst (handleAction None Explain (answers body) typed))
  = Some (Throw (js "text.replace is not a function")).
Proof.
  cbv zeta.
  assert (H : trim (code typed) <> []) by (vm_compute; discriminate).
  split; [exact H|].
  apply (explanation_not_a_string_throws None Explain typed
           {| status := 200;
              json_ := inr (successBody "explain"
                              (JObj [(js "explanation", JNum 42)])) |}
           [(js "success", JBool true); (js "mode", JStr (js "explain"));
            (js "data", JObj [(js "explanation", JNum 42)])]
           [(js "explanation", JNum 42)] (JNum 42)
           H eq_refl eq_refl eq_refl eq_refl eq_refl eq_refl eq_refl).
  intros s. discriminate.
Defined.

(** X26: a section needs its field.  With a truthy result whose mode is
    "fix", "optimize" or "explain" but which has no [fixedCode],
    [optimizedCode] or [explanation], the panel shows its heading and
    nothing else, and no Clear button. *)
Theorem section_needs_its_field st :
  truthy (result st) = true ->
  (resultMode st = Json (JStr (js "fix")) ->
   member (result st) "fixedCode" = Undefined ->
   resultsPanel (page st) = inr (headingOnly (js "Fixed Code")) /\
   clearButtons st = 0) /\
  (resultMode st = Json (JStr (js "optimize")) ->
   member (result st) "optimizedCode" = Undefined ->
   resultsPanel (page st) = inr (headingOnly (js "Optimized Code")) /\
   clearButtons st = 0) /\
  (resultMode st = Json (JStr (js "explain")) ->
   member (result st) "explanation" = Undefined ->
   resultsPanel (page st) = inr (headingOnly (js "Code Explanation")) /\
   clearButtons st = 0).
Proof.
  intros T. split; [|split]; intros M F; unfold clearButtons, page, panelOf;
    rewrite T, M, F; split; reflexivity.
Qed.

Lemma section_needs_its_field_witness :
  let st := fst (handleAction None Fix
                   (answers (successBody "fix" (JObj []))) typed) in
  truthy (result st) = true /\
  resultsPanel (page st) = inr (headingOnly (js "Fixed Code")) /\
  clearButtons st = 0.
Proof.
  cbv zeta.
  assert (T : truthy (result (fst (handleAction None Fix
                (answers (successBody "fix" (JObj []))) typed))) = true)
    by reflexivity.
  split; [exact T|].
  exact (proj1 (section_needs_its_field _ T) eq_refl eq_refl).
Defined.

Lemma hasClear_leftBy v : hasClear (leftBy v) = false.
Proof. destruct v as [|[]]; reflexivity. Qed.

Lemma hasClear_andThen v c :
  hasClear (andThen v c) = truthy v && hasClear c.
Proof.
  unfold andThen. destruct (truthy v); [reflexivity | apply hasClear_leftBy].
Qed.

(** Evaluates the comparisons of two mode names. *)
Ltac compare_names :=
  repeat match goal with
         | |- context [JsString.eqb (js ?a) (js ?b)] =>
             let v := eval vm_compute in (JsString.eqb (js a) (js b)) in
             change (JsString.eqb (js a) (js b)) with v
         end.

Lemma panelOf_mode result m :
  heading (panelOf result (Json (JStr (modeName m)))) = title m /\
  (length (filter hasClear
             (sections (panelOf result (Json (JStr (modeName m)))))) <= 1)%nat.
Proof.
  unfold sections, panelOf.
  destruct m; cbn [modeName isMode title heading forReview forFix forOptimize
                   forExplain]; compare_names; cbn [filter hasClear app];
    split; try reflexivity; try (cbn [length]; lia);
    rewrite hasClear_andThen;
    match goal with |- context [truthy ?v] => destruct (truthy v) end;
    cbn; lia.
Qed.

Lemma panelOf_other result resultMode :
  (forall m, resultMode <> Json (JStr (modeName m))) ->
  panelOf result resultMode = headingOnly [].
Proof.
  intros H. unfold panelOf, headingOnly.
  assert (R : isMode resultMode (js "review") = false).
  { destruct (isMode resultMode (js "review")) eqn:E; [|reflexivity].
    apply isMode_true in E. now contradiction (H Review). }
  assert (F : isMode resultMode (js "fix") = false).
  { destruct (isMode resultMode (js "fix")) eqn:E; [|reflexivity].
    apply isMode_true in E. now contradiction (H Fix). }
  assert (O : isMode resultMode (js "optimize") = false).
  { destruct (isMode resultMode (js "optimize")) eqn:E; [|reflexivity].
    apply isMode_true in E. now contradiction (H Optimize). }
  assert (X : isMode resultMode (js "explain") = false).
  { destruct (isMode resultMode (js "explain")) eqn:E; [|reflexivity].
    apply isMode_true in E. now contradiction (H Explain). }
  now rewrite R, F, O, X.
Qed.

Lemma mode_or_other (resultMode : value) :
  (exists m, resultMode = Json (JStr (modeName m))) \/
  (forall m, resultMode <> Json (JStr (modeName m))).
Proof.
  destruct (isMode resultMode (js "review")) eqn:R;
    [left; exists Review; now apply isMode_true|].
  destruct (isMode resultMode (js "fix")) eqn:F;
    [left; exists Fix; now apply isMode_true|].
  destruct (isMode resultMode (js "optimize")) eqn:O;
    [left; exists Optimize; now apply isMode_true|].
  destruct (isMode resultMode (js "explain")) eqn:X;
    [left; exists Explain; now apply isMode_true|].
  right. intros m E. apply isMode_true in E.
  destruct m; cbn [modeName] in E; congruence.
Qed.

(** X27: at most one section is shown, and only for a result whose mode
    is one of the four names, with the heading of that mode; a truthy
    result with any other mode, or none, gives a panel with an empty
    heading, no section and no Clear button. *)
Theorem one_section_for_a_known_mode st :
  clearButtons st <= 1 /\
  (clearButtons st = 1 ->
   truthy (result st) = true /\
   exists m p, resultMode st = Json (JStr (modeName m)) /\
               resultsPanel (page st) = inr p /\ heading p = title m) /\
  (truthy (result st) = true ->
   (forall m, resultMode st <> Json (JStr (modeName m))) ->
   resultsPanel (page st) = inr (headingOnly []) /\ clearButtons st = 0).
Proof.
  unfold clearButtons, page. cbn [resultsPanel].
  destruct (truthy (result st)) eqn:T.
  - destruct (mode_or_other (resultMode st)) as [[m E] | N].
    + rewrite E. destruct (panelOf_mode (result st) m) as [Hh Hl].
      split; [exact Hl|]. split.
      * intros _. split; [reflexivity|].
        exists m, (panelOf (result st) (Json (JStr (modeName m)))).
        repeat split. exact Hh.
      * intros _ N. now contradiction (N m).
    + rewrite (panelOf_other (result st) (resultMode st) N).
      split; [cbn; lia|]. split; [discriminate|].
      intros _ _. split; reflexivity.
  - split; [lia|]. split; discriminate.
Qed.

Lemma one_section_for_a_known_mode_witness :
  let body := JObj [(js "success", JBool true); (js "data", reviewData)] in
  let st := fst (handleAction None Review (answers body) typed) in
  truthy (result st) = true /\
  (forall m, resultMode st <> Json (JStr (modeName m))) /\
  resultsPanel (page st) = inr (headingOnly []) /\ clearButtons st = 0.
Proof.
  cbv zeta.
  set (st := fst (handleAction None Review
                    (answers (JObj [(js "success", JBool true);
                                    (js "data", reviewData)])) typed)).
  assert (T : truthy (result st) = true) by reflexivity.
  assert (N : forall m, resultMode st <> Json (JStr (modeName m)))
    by (intros m; vm_compute; discriminate).
  split; [exact T | split; [exact N |]].
  exact (proj2 (proj2 (one_section_for_a_known_mode st)) T N).
Defined.

End PresentationFacts.

(** ** The guard of [handleAction] *)

Module ValidationFacts.

Lemma Forall_or_Exists_trimmed (s : jsstring) :
  Forall (fun c => isTrimmed c = true) s \/
  Exists (fun c => isTrimmed c = false) s.
Proof.
  induction s as [|c s [IH | IH]].
  - left. constructor.
  - destruct (isTrimmed c) eqn:E.
    + left. now constructor.
    + right. now constructor.
  - right. now apply Exists_cons_tl.
Qed.

(** X28: a click sends a request exactly when the code holds at least
    one code unit that is neither white space nor a line terminator;
    then it sends exactly one. *)
Theorem request_sent_iff_code_has_text env mode o st :
  (snd (handleAction env mode o st) <> []
   <-> Exists (fun c => isTrimmed c = false) (code st)) /\
  (length (snd (handleAction env mode o st)) <= 1)%nat.
Proof.
  destruct (trim (code st)) as [|c t] eqn:E.
  - pose proof (proj1 (trim_nil_iff (code st)) E) as F.
    unfold handleAction. rewrite (begin_rejected env mode st E).
    cbn [snd length]. split; [|lia]. split; [congruence|].
    intros X. exfalso. apply Exists_exists in X. destruct X as (x & Hin & Hx).
    rewrite Forall_forall in F. specialize (F x Hin). congruence.
  - assert (H : trim (code st) <> []) by (rewrite E; discriminate).
    rewrite (handleAction_accepted env mode o st H). cbn [snd length].
    split; [|lia]. split; [|discriminate]. intros _.
    destruct (Forall_or_Exists_trimmed (code st)) as [F | X]; [|exact X].
    apply trim_nil_iff in F. congruence.
Qed.

End ValidationFacts.
